(** * Habl.AI: chunking, orchestration, metering and file dispatch

    A shallow embedding of the parts of the Habl.AI backend that its
    specification talks about:

    - [hablai_core.py]: [LocalizationAI.translate_text] and
      [LocalizationAI.text_to_speech] (chunking of long text, one remote
      call per chunk, reassembly);
    - [file_processor.py]: [FileProcessor.process_file] (dispatch on the
      file extension);
    - [models.py], [config.py]: the enumerations of target languages;
    - [api.py], [auth.py]: the [/translate], [/tts] and [/process-file]
      endpoints and the credit check in front of them.

    Python [str] values are modelled by [string]; a character is one of the
    256 code points U+0000..U+00FF.  Lengths are [nat].  Remote services
    (translator, speech synthesiser, format parsers) are parameters; an
    exception is represented by its message, [str(e)]. *)

From Stdlib Require Import Ascii String List Arith Lia Bool ZArith.
From stdpp Require Import base option list strings gmap pretty.

(* ===================================================================== *)
(** * Python string primitives used by the sources *)
(* ===================================================================== *)

Module PyStr.

(** [sep.join(l)] *)
Definition join (sep : string) (l : list string) : string :=
  String.concat sep l.

(** [s[n:]] *)
Fixpoint drop (n : nat) (s : string) : string :=
  match n, s with
  | O, _ => s
  | S _, EmptyString => EmptyString
  | S k, String _ s' => drop k s'
  end.

(** [s[:n]] *)
Fixpoint take (n : nat) (s : string) : string :=
  match n, s with
  | O, _ => EmptyString
  | S _, EmptyString => EmptyString
  | S k, String c s' => String c (take k s')
  end.

(** [s.startswith(p)] *)
Definition startswith (p s : string) : bool := String.prefix p s.

(** [sub in s] *)
Fixpoint contains (sub s : string) : bool :=
  match s with
  | EmptyString => startswith sub EmptyString
  | String _ s' => startswith sub s || contains sub s'
  end.

(** Puts a character in front of the first piece of a list of pieces. *)
Definition push_front (c : ascii) (pieces : list string) : list string :=
  match pieces with
  | [] => [String c EmptyString]
  | p :: ps => String c p :: ps
  end.

(** [s.split(sep)] for a non-empty [sep]: the pieces between the
    occurrences of [sep] found from left to right, occurrences not
    overlapping.  [skip] counts the characters of a separator just
    recognised that are still to be passed over. *)
Fixpoint split_from (sep : string) (skip : nat) (s : string) : list string :=
  match s with
  | EmptyString => [EmptyString]
  | String c s' =>
      match skip with
      | S k => split_from sep k s'
      | O =>
          if startswith sep s
          then EmptyString :: split_from sep (String.length sep - 1) s'
          else push_front c (split_from sep 0 s')
      end
  end.

Definition split (sep s : string) : list string := split_from sep 0 s.

(** [s.replace(old, new)] for a non-empty [old]. *)
Fixpoint replace_from (old new : string) (skip : nat) (s : string) : string :=
  match s with
  | EmptyString => EmptyString
  | String c s' =>
      match skip with
      | S k => replace_from old new k s'
      | O =>
          if startswith old s
          then new +:+ replace_from old new (String.length old - 1) s'
          else String c (replace_from old new 0 s')
      end
  end.

Definition replace (old new s : string) : string := replace_from old new 0 s.

(** [c.isspace()] on U+0000..U+00FF: TAB..CR, FS..US, SPACE, NEL, NBSP. *)
Definition isspace (c : ascii) : bool :=
  let n := nat_of_ascii c in
  ((9 <=? n) && (n <=? 13)) || ((28 <=? n) && (n <=? 32))
  || (n =? 133) || (n =? 160).

Fixpoint lstrip (s : string) : string :=
  match s with
  | EmptyString => EmptyString
  | String c s' => if isspace c then lstrip s' else s
  end.

Fixpoint rstrip (s : string) : string :=
  match s with
  | EmptyString => EmptyString
  | String c s' =>
      match rstrip s' with
      | EmptyString => if isspace c then EmptyString else String c EmptyString
      | r => String c r
      end
  end.

(** [s.strip()] *)
Definition strip (s : string) : string := rstrip (lstrip s).

(** [c.lower()] on U+0000..U+00FF: A..Z and the upper-case letters
    U+00C0..U+00DE (U+00D7, the multiplication sign, apart). *)
Definition lower_char (c : ascii) : ascii :=
  let n := nat_of_ascii c in
  if ((65 <=? n) && (n <=? 90))
     || ((192 <=? n) && (n <=? 222) && negb (n =? 215))
  then ascii_of_nat (n + 32) else c.

(** [s.lower()] *)
Fixpoint lower (s : string) : string :=
  match s with
  | EmptyString => EmptyString
  | String c s' => String (lower_char c) (lower s')
  end.

(** [c * n] *)
Fixpoint repeat (c : ascii) (n : nat) : string :=
  match n with
  | O => EmptyString
  | S k => String c (repeat c k)
  end.

(** Truthiness of a string or of a list: non-empty. *)
Definition nonempty (s : string) : bool :=
  match s with EmptyString => false | _ => true end.

End PyStr.

Import PyStr.

(* ===================================================================== *)
(** * hablai_core.py: the chunkers *)
(* ===================================================================== *)

Module Chunker.

(** ['\n\n'], ['.\n'] and ['.\r'] *)
Definition PARAGRAPH_SEP : string := String "010" (String "010" EmptyString).
Definition DOT_LF : string := String "." (String "010" EmptyString).
Definition DOT_CR : string := String "." (String "013" EmptyString).

(** The three loop variables of both chunking loops. *)
Record state := mkState {
  chunks : list string;
  current_chunk : list string;
  current_length : nat
}.

Definition init : state := mkState [] [] 0.

(** [if current_chunk: chunks.append(glue(current_chunk))] *)
Definition flush (glue : list string -> string) (st : state) : list string :=
  match current_chunk st with
  | [] => chunks st
  | _ :: _ => chunks st ++ [glue (current_chunk st)]
  end.

(** The body shared by the three loops: one segment [seg] is either
    appended to the current chunk or opens a new one, the chunk in
    progress being emitted through [glue]. *)
Definition add_segment (limit : nat) (glue : list string -> string)
    (st : state) (seg : string) : state :=
  if limit <? current_length st + String.length seg + 2 then
    mkState (flush glue st) [seg] (String.length seg)
  else
    mkState (chunks st) (current_chunk st ++ [seg])
            (current_length st + String.length seg + 2).

(** [sentence = sentence.strip(); if not sentence: continue; ...] *)
Definition add_sentence (limit : nat) (glue : list string -> string)
    (st : state) (sentence : string) : state :=
  let sentence := strip sentence in
  if nonempty sentence then add_segment limit glue st sentence else st.

(** ** translate_text, lines 70-107 *)

Definition add_paragraph (limit : nat) (st : state) (paragraph : string) : state :=
  if limit <? String.length paragraph then
    fold_left (add_sentence limit (join " ")) (split ". " paragraph) st
  else
    add_segment limit (join PARAGRAPH_SEP) st paragraph.

Definition translate_chunks (limit : nat) (text : string) : list string :=
  let paragraphs := split PARAGRAPH_SEP text in
  flush (join PARAGRAPH_SEP) (fold_left (add_paragraph limit) paragraphs init).

(** ** text_to_speech, lines 178-200 *)

Definition tts_glue (l : list string) : string := join ". " l +:+ ".".

Definition tts_sentences (text : string) : list string :=
  split ". " (replace DOT_CR ". " (replace DOT_LF ". " text)).

Definition tts_chunks (limit : nat) (text : string) : list string :=
  flush tts_glue (fold_left (add_sentence limit tts_glue) (tts_sentences text) init).

(** ** The packing, seen on the segments

    The loops above hand over each chunk already joined.  The definitions
    below describe the same packing on the segments themselves, so that a
    chunk can be related to the segments it is made of. *)

(** The sentences a list of pieces contributes: stripped, the empty ones
    skipped. *)
Definition sentences (pieces : list string) : list string :=
  List.filter nonempty (map strip pieces).

(** The segments of a paragraph: the paragraph itself, or its sentences
    when it is longer than the limit; and the segments of a text. *)
Definition paragraph_segments (limit : nat) (paragraph : string) : list string :=
  if limit <? String.length paragraph
  then sentences (split ". " paragraph) else [paragraph].

Definition translate_segments (limit : nat) (text : string) : list string :=
  flat_map (paragraph_segments limit) (split PARAGRAPH_SEP text).

Definition tts_segments (text : string) : list string :=
  sentences (tts_sentences text).

(** A chunk in progress is emitted unless it is empty. *)
Definition close (current : list string) : list (list string) :=
  match current with [] => [] | _ :: _ => [current] end.

(** The groups of segments the packer makes of [segs], starting with the
    chunk [current] in progress for which it has counted [counted]
    characters. *)
Fixpoint pack_from (limit : nat) (current : list string) (counted : nat)
    (segs : list string) : list (list string) :=
  match segs with
  | [] => close current
  | seg :: rest =>
      if limit <? counted + String.length seg + 2
      then close current ++ pack_from limit [seg] (String.length seg) rest
      else pack_from limit (current ++ [seg]) (counted + String.length seg + 2) rest
  end.

Definition pack (limit : nat) (segs : list string) : list (list string) :=
  pack_from limit [] 0 segs.

(** The length of a group once joined by a separator of 2 characters. *)
Fixpoint weight (group : list string) : nat :=
  match group with
  | [] => 0
  | seg :: rest =>
      match rest with
      | [] => String.length seg
      | _ :: _ => String.length seg + 2 + weight rest
      end
  end.

(** A chunk of [translate_text] is its group joined by a space or by the
    paragraph separator. *)
Definition glued (chunk : string) (group : list string) : Prop :=
  chunk = join " " group \/ chunk = join PARAGRAPH_SEP group.

(** No group could take in the first segment of the next group: joined to
    the group by a separator of 2 characters, that segment would make it
    longer than the limit.  [slack] is an allowance granted to the first
    pair of groups only. *)
Fixpoint tight (limit slack : nat) (groups : list (list string)) : Prop :=
  match groups with
  | [] => True
  | earlier :: rest =>
      match rest with
      | [] => True
      | later :: _ =>
          match later with
          | [] => True
          | seg :: _ => limit < weight earlier + 2 + String.length seg + slack
          end
          /\ tight limit 0 rest
      end
  end.

End Chunker.

(* ===================================================================== *)
(** * Effects: a state and exception monad *)
(* ===================================================================== *)

Module Eff.

(** What a Python call does: it returns a value or raises. *)
Inductive result (E A : Type) : Type :=
| Returned (a : A)
| Raised (e : E).
Global Arguments Returned {E A} a.
Global Arguments Raised {E A} e.

(** A computation over a store [W] that may raise an [E]. *)
Definition M (W E A : Type) : Type := W -> result E A * W.

Definition ret {W E A} (a : A) : M W E A := fun w => (Returned a, w).

Definition raise {W E A} (e : E) : M W E A := fun w => (Raised e, w).

Definition bind {W E A B} (c : M W E A) (k : A -> M W E B) : M W E B :=
  fun w =>
    match c w with
    | (Returned a, w') => k a w'
    | (Raised e, w') => (Raised e, w')
    end.

(** [try: c  except Exception as e: h e]; the store keeps what [c] did
    before raising. *)
Definition try_except {W E E' A} (c : M W E A) (h : E -> M W E' A) : M W E' A :=
  fun w =>
    match c w with
    | (Returned a, w') => (Returned a, w')
    | (Raised e, w') => h e w'
    end.

Definition get {W E} : M W E W := fun w => (Returned w, w).

Definition modify {W E} (f : W -> W) : M W E unit := fun w => (Returned tt, f w).

(** What the remote side answers does not depend on the store. *)
Definition lift {W E A} (r : result E A) : M W E A := fun w => (r, w).

(** [for x in l: acc = body(acc, x)] *)
Fixpoint for_each {W E A B} (body : B -> A -> M W E B) (l : list A) (acc : B)
    : M W E B :=
  match l with
  | [] => ret acc
  | x :: l' => bind (body acc x) (for_each body l')
  end.

(** [enumerate(l, start)] *)
Fixpoint enumerate {A} (start : nat) (l : list A) : list (nat * A) :=
  match l with
  | [] => []
  | x :: l' => (start, x) :: enumerate (S start) l'
  end.

(** [c] leaves the store related by [R] to the store it started from,
    whether it returns or raises. *)
Definition preserves {W E A} (R : W -> W -> Prop) (c : M W E A) : Prop :=
  forall w, R w (c w).2.

End Eff.

Import Eff.

Declare Scope eff_scope.
Delimit Scope eff_scope with eff.
Notation "x <- c ;; k" := (bind c (fun x => k))
  (at level 100, c at next level, right associativity) : eff_scope.

(* ===================================================================== *)
(** * hablai_core.py: LocalizationAI *)
(* ===================================================================== *)

Module Core.

(** An exception, as the handlers see it: [str(e)]. *)
Definition exn : Type := string.

(** Decoded audio: the samples of an [AudioSegment]; [+] on segments is
    concatenation. *)
Definition audio : Type := list Z.

(** A request sent to one of the two remote services. *)
Inductive call : Type :=
| Translate (target text : string)   (* GoogleTranslator(...).translate(text) *)
| Speak (lang text : string).        (* gTTS(text=text, lang=lang).save(...) *)

(** A row of the [usage_logs] table. *)
Record usage := mkUsage {
  log_user : string;
  log_action : string;
  log_chars : nat;
  log_targets : list string;
  log_credits_used : Z;
  log_success : bool;
  log_error : option string
}.

(** Everything outside the process that the code reads or changes. *)
Record world := mkWorld {
  calls : list call;              (* remote requests so far, oldest first *)
  files : gmap string audio;      (* audio files on disk, by path *)
  clock : string;                 (* datetime.now() as %Y%m%d_%H%M%S *)
  ledger : gmap string Z;         (* credits_remaining, by user id *)
  ledger_online : bool;           (* the managed database answers *)
  usage_logs : list usage         (* oldest first *)
}.

Definition with_calls (f : list call -> list call) (w : world) : world :=
  mkWorld (f (calls w)) (files w) (clock w) (ledger w) (ledger_online w) (usage_logs w).
Definition with_files (f : gmap string audio -> gmap string audio) (w : world) : world :=
  mkWorld (calls w) (f (files w)) (clock w) (ledger w) (ledger_online w) (usage_logs w).
Definition with_ledger (f : gmap string Z -> gmap string Z) (w : world) : world :=
  mkWorld (calls w) (files w) (clock w) (f (ledger w)) (ledger_online w) (usage_logs w).
Definition with_usage_logs (f : list usage -> list usage) (w : world) : world :=
  mkWorld (calls w) (files w) (clock w) (ledger w) (ledger_online w) (f (usage_logs w)).

(** The world after the remote requests [new] went out, nothing else having
    changed. *)
Definition after_calls (w : world) (new : list call) : world :=
  with_calls (fun cs => cs ++ new) w.

(** The third-party libraries, as far as the code can observe them. *)
Record services := mkServices {
  (* GoogleTranslator(source='en', target=t): None when it is built *)
  translator_init : string -> option exn;
  (* translator.translate(text), for the target the translator was built for *)
  translator_translate : string -> string -> result exn string;
  (* gTTS(text=text, lang=lang, slow=False) followed by save *)
  gtts_save : string -> string -> result exn audio;
  (* whether [from pydub import AudioSegment] succeeds *)
  pydub_installed : bool
}.

Local Open Scope eff_scope.

Section LocalizationAI.

Variable env : services.

Definition source_language : string := "en".

Definition target_languages : list (string * string) :=
  [ ("en", "English (US)"); ("es", "Spanish"); ("fr", "French");
    ("de", "German"); ("it", "Italian"); ("pt", "Portuguese");
    ("ja", "Japanese"); ("zh-CN", "Chinese"); ("ko", "Korean") ].

Definition MAX_CHUNK_SIZE : nat := 4500.
Definition MAX_TTS_SIZE : nat := 4999.

(** [GoogleTranslator(source=self.source_language, target=target_lang)] *)
Definition new_translator (target_lang : string) : M world exn unit :=
  match translator_init env target_lang with
  | None => ret tt
  | Some e => raise e
  end.

(** [translator.translate(text)]: the request goes out, then the answer
    or the failure comes back. *)
Definition translate_call (target_lang text : string) : M world exn string :=
  _ <- modify (with_calls (fun cs => cs ++ [Translate target_lang text])) ;;
  lift (translator_translate env target_lang text).

(** Lines 120-123: one request per chunk, the answers collected in order. *)
Definition translate_each (target_lang : string) (chunks : list string)
    : M world exn (list string) :=
  for_each (fun translated_chunks chunk =>
              translated <- translate_call target_lang chunk ;;
              ret (translated_chunks ++ [translated]))
           chunks [].

(** The body of the [try] of [translate_text]. *)
Definition translate_text_body (text target_lang : string) : M world exn string :=
  if String.length text <=? MAX_CHUNK_SIZE then
    if String.eqb target_lang source_language then ret text
    else
      _ <- new_translator target_lang ;;
      translate_call target_lang text
  else
    let chunks := Chunker.translate_chunks MAX_CHUNK_SIZE text in
    if String.eqb target_lang source_language then ret text
    else
      _ <- new_translator target_lang ;;
      translated_chunks <- translate_each target_lang chunks ;;
      ret (join Chunker.PARAGRAPH_SEP translated_chunks).

Definition translate_text (text target_lang : string) : M world exn string :=
  try_except (translate_text_body text target_lang)
             (fun e => ret ("Translation error: " +:+ e)).

(** [os.path.join(a, b)] for a relative [b]. *)
Definition path_join (a b : string) : string :=
  if negb (nonempty a) then b
  else if String.eqb (drop (String.length a - 1) a) "/" then a +:+ b
  else a +:+ "/" +:+ b.

(** [gTTS(text=text, lang=lang, slow=False).save(path)] *)
Definition tts_save (text lang path : string) : M world exn unit :=
  _ <- modify (with_calls (fun cs => cs ++ [Speak lang text])) ;;
  mp3 <- lift (gtts_save env lang text) ;;
  modify (with_files (fun fs => <[path := mp3]> fs)).

(** [AudioSegment.from_mp3(path)] *)
Definition from_mp3 (path : string) : M world exn audio :=
  w <- get ;;
  match files w !! path with
  | Some a => ret a
  | None => raise ("[Errno 2] No such file or directory: '" +:+ path +:+ "'")
  end.

(** Lines 207-218: the body of the loop over the audio chunks. *)
Definition speak_chunk (lang output_dir timestamp : string)
    (combined : audio) (ic : nat * string) : M world exn audio :=
  let temp_filename :=
    path_join output_dir
      ("temp_" +:+ lang +:+ "_" +:+ timestamp +:+ "_" +:+ pretty (fst ic) +:+ ".mp3") in
  _ <- tts_save (snd ic) lang temp_filename ;;
  audio_chunk <- from_mp3 temp_filename ;;
  let combined := combined ++ audio_chunk in
  _ <- modify (with_files (fun fs => delete temp_filename fs)) ;;
  ret combined.

(** The body of the [try] of [text_to_speech]; the creation of the output
    folder is left out. *)
Definition text_to_speech_body (text lang output_dir : string)
    : M world exn string :=
  w <- get ;;
  let timestamp := clock w in
  let filename :=
    path_join output_dir ("audio_" +:+ lang +:+ "_" +:+ timestamp +:+ ".mp3") in
  if String.length text <=? MAX_TTS_SIZE then
    _ <- tts_save text lang filename ;;
    ret filename
  else if negb (pydub_installed env) then
    let text := take MAX_TTS_SIZE text in
    _ <- tts_save text lang filename ;;
    ret filename
  else
    let chunks := Chunker.tts_chunks MAX_TTS_SIZE text in
    combined <- for_each (speak_chunk lang output_dir timestamp)
                         (enumerate 1 chunks) [] ;;
    _ <- modify (with_files (fun fs => <[filename := combined]> fs)) ;;
    ret filename.

Definition text_to_speech (text lang output_dir : string) : M world exn string :=
  try_except (text_to_speech_body text lang output_dir)
             (fun e => ret ("TTS error: " +:+ e)).

End LocalizationAI.

End Core.

(* ===================================================================== *)
(** * file_processor.py: FileProcessor *)
(* ===================================================================== *)

Module FileProcessor.

Import Core.

Definition SUPPORTED_FORMATS : list (string * string) :=
  [ ("txt", "text/plain");
    ("pdf", "application/pdf");
    ("docx", "application/vnd.openxmlformats-officedocument.wordprocessingml.document");
    ("json", "application/json");
    ("csv", "text/csv");
    ("xlsx", "application/vnd.openxmlformats-officedocument.spreadsheetml.sheet");
    ("xls", "application/vnd.ms-excel") ].

(** [k in d] and [list(d.keys())] for a dict written as its items in
    insertion order. *)
Definition keys (d : list (string * string)) : list string := map fst d.
Definition has_key (k : string) (d : list (string * string)) : bool :=
  existsb (String.eqb k) (keys d).

(** The six formats the specification lists. *)
Definition listed_formats : list string :=
  ["txt"; "pdf"; "docx"; "json"; "csv"; "xlsx"].

Definition MAX_FILE_SIZE : N := 10 * 1024 * 1024.

Definition get_file_extension (filename : string) : string :=
  lower (List.last (split "." filename) EmptyString).

Definition is_supported (filename : string) : bool :=
  let ext := get_file_extension filename in
  has_key ext SUPPORTED_FORMATS.

(** The six static methods [_process_txt] .. [_process_xlsx]: each hands
    the bytes to a parsing library and returns the text or raises. *)
Record extractors := mkExtractors {
  _process_txt : list Byte.byte -> result exn string;
  _process_pdf : list Byte.byte -> result exn string;
  _process_docx : list Byte.byte -> result exn string;
  _process_json : list Byte.byte -> result exn string;
  _process_csv : list Byte.byte -> result exn string;
  _process_xlsx : list Byte.byte -> result exn string
}.

(** The dictionary [process_file] returns: the keys present depend on the
    branch, [success] is the constructor. *)
Inductive file_result : Type :=
| Extracted (text filename format : string) (size_bytes char_count : nat)
| Failed (error : string) (supported_formats : option (list string))
         (filename : option string).

Definition success (r : file_result) : bool :=
  match r with Extracted _ _ _ _ _ => true | Failed _ _ _ => false end.

Definition error (r : file_result) : option string :=
  match r with Extracted _ _ _ _ _ => None | Failed e _ _ => Some e end.

Definition UNSUPPORTED : string := "Formato no soportado: ".
Definition TOO_LARGE : string :=
  "Archivo demasiado grande. M" +:+ String "225" "ximo: 10.0 MB".
Definition NOT_IMPLEMENTED : string := "Procesador no implementado para: ".
Definition PROCESSING_ERROR : string := "Error procesando archivo: ".

(** Lines 69-85: the [if]/[elif] chain; [None] is its final [else]. *)
Definition dispatch (lib : extractors) (ext : string)
    : option (list Byte.byte -> result exn string) :=
  if String.eqb ext "txt" then Some (_process_txt lib)
  else if String.eqb ext "pdf" then Some (_process_pdf lib)
  else if String.eqb ext "docx" then Some (_process_docx lib)
  else if String.eqb ext "json" then Some (_process_json lib)
  else if String.eqb ext "csv" then Some (_process_csv lib)
  else if existsb (String.eqb ext) ["xlsx"; "xls"] then Some (_process_xlsx lib)
  else None.

Definition process_file (lib : extractors) (file_content : list Byte.byte)
    (filename : string) : file_result :=
  let ext := get_file_extension filename in
  if negb (is_supported filename) then
    Failed (UNSUPPORTED +:+ ext) (Some (keys SUPPORTED_FORMATS)) None
  else if (MAX_FILE_SIZE <? N.of_nat (length file_content))%N then
    Failed TOO_LARGE None None
  else
    match dispatch lib ext with
    | None => Failed (NOT_IMPLEMENTED +:+ ext) None None
    | Some extract =>
        match extract file_content with
        | Returned text =>
            Extracted text filename ext (length file_content) (String.length text)
        | Raised e => Failed (PROCESSING_ERROR +:+ e) None (Some filename)
        end
    end.

End FileProcessor.

(* ===================================================================== *)
(** * file_processor.py: the six extractors *)
(* ===================================================================== *)

Module Extractors.

Import Core.

(** What [json.loads] returns; a number is kept as it is written. *)
#[warnings="-register-all"]
Inductive json : Type :=
| JNull
| JBool (b : bool)
| JNumber (written : string)
| JString (s : string)
| JList (items : list json)
| JDict (items : list (string * json)).

(** The parsing libraries, as far as the extractors observe them. *)
Record libraries := mkLibraries {
  (* content.decode('utf-8', errors='ignore') *)
  decode_utf8_ignore : list Byte.byte -> string;
  (* [page.extract_text() for page in PyPDF2.PdfReader(BytesIO(content)).pages] *)
  pdf_page_texts : list Byte.byte -> result exn (list string);
  (* [paragraph.text for paragraph in Document(BytesIO(content)).paragraphs] *)
  docx_paragraph_texts : list Byte.byte -> result exn (list string);
  (* json.loads(json_str) *)
  json_loads : string -> result exn json;
  (* list(csv.reader(StringIO(csv_str))) *)
  csv_reader : string -> result exn (list (list string));
  (* for each sheet of the workbook, in order: its name and its rows, a cell
     being None or given by its str() *)
  xlsx_sheets : list Byte.byte -> result exn (list (string * list (list (option string))))
}.

(** ['\n'] *)
Definition LF : string := String "010" EmptyString.

Section WithLibraries.

Variable libs : libraries.

Definition _process_txt (content : list Byte.byte) : result exn string :=
  Returned (strip (decode_utf8_ignore libs content)).

Definition _process_pdf (content : list Byte.byte) : result exn string :=
  match pdf_page_texts libs content with
  | Returned text_parts => Returned (strip (join Chunker.PARAGRAPH_SEP text_parts))
  | Raised e => Raised e
  end.

Definition _process_docx (content : list Byte.byte) : result exn string :=
  match docx_paragraph_texts libs content with
  | Returned paragraphs =>
      let text_parts := List.filter (fun t => nonempty (strip t)) paragraphs in
      Returned (strip (join Chunker.PARAGRAPH_SEP text_parts))
  | Raised e => Raised e
  end.

(** The inner function [extract_text] of [_process_json]. *)
Fixpoint extract_text (obj : json) : list string :=
  match obj with
  | JDict items => flat_map (fun kv => extract_text (snd kv)) items
  | JList items => flat_map extract_text items
  | JString s => [s]
  | _ => []
  end.

Definition _process_json (content : list Byte.byte) : result exn string :=
  let json_str := decode_utf8_ignore libs content in
  match json_loads libs json_str with
  | Returned data => Returned (strip (join LF (extract_text data)))
  | Raised e => Raised e
  end.

(** [' | '.join(cell.strip() for cell in row if cell.strip())] *)
Definition csv_row_text (row : list string) : string :=
  join " | " (map strip (List.filter (fun cell => nonempty (strip cell)) row)).

Definition _process_csv (content : list Byte.byte) : result exn string :=
  let csv_str := decode_utf8_ignore libs content in
  match csv_reader libs csv_str with
  | Returned rows =>
      let text_parts := List.filter nonempty (map csv_row_text rows) in
      Returned (strip (join LF text_parts))
  | Raised e => Raised e
  end.

(** [' | '.join(str(cell).strip() for cell in row
                if cell is not None and str(cell).strip())] *)
Definition xlsx_row_text (row : list (option string)) : string :=
  join " | "
    (map strip
       (List.filter (fun cell => nonempty (strip cell))
          (flat_map (fun cell => match cell with Some s => [s] | None => [] end) row))).

(** The lines one sheet contributes: its title, then its non-empty rows. *)
Definition sheet_parts (sheet : string * list (list (option string))) : list string :=
  ("=== " +:+ fst sheet +:+ " ===")
  :: List.filter nonempty (map xlsx_row_text (snd sheet)).

Definition _process_xlsx (content : list Byte.byte) : result exn string :=
  match xlsx_sheets libs content with
  | Returned sheets => Returned (strip (join LF (flat_map sheet_parts sheets)))
  | Raised e => Raised e
  end.

(** The six static methods, as [process_file] calls them. *)
Definition extractors_of : FileProcessor.extractors :=
  FileProcessor.mkExtractors _process_txt _process_pdf _process_docx
    _process_json _process_csv _process_xlsx.

End WithLibraries.

End Extractors.

(* ===================================================================== *)
(** * models.py and config.py *)
(* ===================================================================== *)

Module Models.

Inductive TargetLanguage : Type :=
| ENGLISH | SPANISH | FRENCH | GERMAN | ITALIAN
| PORTUGUESE | JAPANESE | CHINESE | KOREAN.

(** [member.value] *)
Definition value (l : TargetLanguage) : string :=
  match l with
  | ENGLISH => "en" | SPANISH => "es" | FRENCH => "fr" | GERMAN => "de"
  | ITALIAN => "it" | PORTUGUESE => "pt" | JAPANESE => "ja"
  | CHINESE => "zh-CN" | KOREAN => "ko"
  end.

(** [list(TargetLanguage)], in declaration order. *)
Definition members : list TargetLanguage :=
  [ENGLISH; SPANISH; FRENCH; GERMAN; ITALIAN; PORTUGUESE; JAPANESE; CHINESE; KOREAN].

(** The nine codes the specification lists. *)
Definition accepted_codes : list string :=
  ["en"; "es"; "fr"; "de"; "it"; "pt"; "ja"; "zh-CN"; "ko"].

(** [TargetLanguage(s)], as request validation applies it to the
    [target_language] field. *)
Definition of_value (s : string) : option TargetLanguage :=
  List.find (fun m => String.eqb (value m) s) members.

(** [TranslateRequest] and [TTSRequest] have the same two fields. *)
Record TranslateRequest := mkTranslateRequest {
  text : string;
  target_language : TargetLanguage
}.

(** Validation of a request body: [text] of 1 to 20000 characters and a
    [target_language] that is the value of a member. *)
Definition validate (raw_text raw_target_language : string)
    : option TranslateRequest :=
  if ((1 <=? N.of_nat (String.length raw_text))
      && (N.of_nat (String.length raw_text) <=? 20000))%N
  then option_map (mkTranslateRequest raw_text) (of_value raw_target_language)
  else None.

Record TranslateResponse := mkTranslateResponse {
  tr_success : bool;
  tr_source_text : string;
  tr_source_language : string;
  tr_translated_text : string;
  tr_target_language : string
}.

Record TTSResponse := mkTTSResponse {
  tts_success : bool;
  tts_source_text : string;
  tts_source_language : string;
  tts_translated_text : string;
  tts_target_language : string;
  tts_audio_file : string;
  tts_audio_url : string;
  tts_char_count : nat
}.

Record ProcessFileResponse := mkProcessFileResponse {
  pf_success : bool;
  pf_filename : string;
  pf_format : string;
  pf_source_text : string;
  pf_source_language : string;
  pf_translated_text : string;
  pf_target_language : string;
  pf_audio_file : string;
  pf_audio_url : string;
  pf_char_count : nat
}.

End Models.

Module Config.

Definition SOURCE_LANGUAGE : string := "en".

Definition TARGET_LANGUAGES : list (string * string) :=
  [ ("en", "English (US)"); ("es", "Spanish"); ("fr", "French");
    ("de", "German"); ("it", "Italian"); ("pt", "Portuguese");
    ("ja", "Japanese"); ("zh-CN", "Chinese"); ("ko", "Korean") ].

Definition MAX_TEXT_LENGTH : N := 20000.
Definition MIN_TEXT_LENGTH : N := 1.

End Config.

(* ===================================================================== *)
(** * auth.py: the credit check and the usage log *)
(* ===================================================================== *)

Module Auth.

Import Core.
Local Open Scope eff_scope.

(** Modelled from the spec: the stored procedure [check_and_deduct_credits]
    that [supabase.rpc] invokes lives in the managed database and is not
    among the sources.  Following the glossary entry "Credit" (a unit
    deducted per billable action, tracked in an external ledger) and the
    docstring of its caller ("True if credits available and deducted,
    False otherwise"): with no row for the user there is no answer; with
    a balance that covers the request the balance is lowered and the
    answer is true; otherwise nothing changes and the answer is false.
    A database that does not answer makes the call raise. *)
Definition rpc_check_and_deduct_credits (p_user_id : string) (p_credits_needed : Z)
    : M world exn (option bool) :=
  w <- get ;;
  if negb (ledger_online w) then raise "connection error"
  else
    match ledger w !! p_user_id with
    | None => ret None
    | Some balance =>
        if (p_credits_needed <=? balance)%Z then
          _ <- modify (with_ledger (fun l => <[p_user_id := (balance - p_credits_needed)%Z]> l)) ;;
          ret (Some true)
        else ret (Some false)
    end.

(** Whether the ledger answers and holds at least [credits_needed] for the
    user, and the world once they are taken. *)
Definition covered (w : world) (user_id : string) (credits_needed : Z) : bool :=
  ledger_online w
  && match ledger w !! user_id with
     | Some balance => (credits_needed <=? balance)%Z
     | None => false
     end.

Definition charged (w : world) (user_id : string) (credits_needed : Z) : world :=
  match ledger w !! user_id with
  | Some balance =>
      with_ledger (fun l => <[user_id := (balance - credits_needed)%Z]> l) w
  | None => w
  end.

(** [AuthService.check_and_deduct_credits] *)
Definition check_and_deduct_credits {E} (user_id : string) (credits_needed : Z)
    : M world E bool :=
  try_except
    (data <- rpc_check_and_deduct_credits user_id credits_needed ;;
     ret (match data with Some b => b | None => false end))
    (fun _ => ret false).


(** The world once [row] is written to [usage_logs], if it can be. *)
Definition logged (w : world) (row : usage) : world :=
  if ledger_online w then with_usage_logs (fun rows => rows ++ [row]) w else w.

(** [AuthService.log_usage]: the row is inserted, or the failure of the
    insertion is printed and dropped. *)
Definition log_usage {E} (user_id action_type : string) (char_count : nat)
    (target_languages : list string) (success : bool)
    (error_message : option string) : M world E unit :=
  w <- get ;;
  if ledger_online w then
    modify (with_usage_logs (fun rows =>
      rows ++ [mkUsage user_id action_type char_count target_languages 1
                       success error_message]))
  else ret tt.

End Auth.

(* ===================================================================== *)
(** * api.py: the three metered endpoints *)
(* ===================================================================== *)

Module Api.

Import Core Models.
Local Open Scope eff_scope.

(** What a handler body can raise. *)
Inductive exception : Type :=
| HTTPException (status_code : nat) (detail : string)
| Exception (message : string).

(** What the client receives when the handler does not return. *)
Record http_error := mkHttpError {
  status_code : nat;
  detail : string
}.

(** The dictionary [current_user] that the authentication dependency
    hands to a handler. *)
Record user := mkUser {
  id : string;
  credits_remaining : Z
}.

(** An [UploadFile]. *)
Record upload := mkUpload {
  filename : string;
  content : list Byte.byte
}.

(** A call into the core engine, which reports with [exn]. *)
Definition core {A} (c : M world exn A) : M world exception A :=
  try_except c (fun e => raise (Exception e)).

(** The two [except] clauses that close every handler:
    [except HTTPException: raise] and
    [except Exception as e: raise HTTPException(500, prefix + str(e))]. *)
Definition handler {A} (prefix : string) (body : M world exception A)
    : M world http_error A :=
  try_except body
    (fun e =>
       match e with
       | HTTPException s d => raise (mkHttpError s d)
       | Exception m => raise (mkHttpError 500 (prefix +:+ m))
       end).

(** [os.path.basename(path)] *)
Definition basename (path : string) : string :=
  List.last (split "/" path) EmptyString.

(** [repr] of a list of strings that hold no quote. *)
Definition repr_list (l : list string) : string :=
  "[" +:+ join ", " (map (fun s => "'" +:+ s +:+ "'") l) +:+ "]".

(** [s[:500] + "..." if len(s) > 500 else s] *)
Definition preview (s : string) : string :=
  if 500 <? String.length s then take 500 s +:+ "..." else s.

Definition OUTPUT_DIR : string := "output_audio".

Section Endpoints.

Variable env : services.
Variable lib : FileProcessor.extractors.

(** POST /translate, lines 209-261 *)
Definition translate_text (current_user : user) (data : TranslateRequest)
    : M world http_error TranslateResponse :=
  handler "Translation error: " (
    has_credits <- Auth.check_and_deduct_credits (id current_user) 1 ;;
    if negb has_credits then
      raise (HTTPException 402
               ("Insufficient credits. You have "
                +:+ pretty (credits_remaining current_user)
                +:+ " credits remaining. Upgrade your plan to continue."))
    else
      translated <- core (Core.translate_text env (text data) (value (target_language data))) ;;
      if contains "Error" translated then
        _ <- Auth.log_usage (id current_user) "translate" (String.length (text data))
               [value (target_language data)] false (Some translated) ;;
        raise (HTTPException 500 translated)
      else
        _ <- Auth.log_usage (id current_user) "translate" (String.length (text data))
               [value (target_language data)] true None ;;
        ret (mkTranslateResponse true (text data) Config.SOURCE_LANGUAGE
               translated (value (target_language data)))).

(** POST /tts, lines 283-380; the rows written to the [translations]
    and [localizations] tables are left out (a failure to write them is
    printed and dropped, and nothing reads them back). *)
Definition text_to_speech (current_user : user) (data : TranslateRequest)
    : M world http_error TTSResponse :=
  handler "TTS error: " (
    has_credits <- Auth.check_and_deduct_credits (id current_user) 1 ;;
    if negb has_credits then
      raise (HTTPException 402
               ("Insufficient credits. You have "
                +:+ pretty (credits_remaining current_user)
                +:+ " credits remaining."))
    else
      translated <- core (Core.translate_text env (text data) (value (target_language data))) ;;
      if contains "Error" translated then
        _ <- Auth.log_usage (id current_user) "tts" (String.length (text data))
               [value (target_language data)] false (Some translated) ;;
        raise (HTTPException 500 translated)
      else
        audio_file <- core (Core.text_to_speech env translated
                              (value (target_language data)) OUTPUT_DIR) ;;
        if contains "Error" audio_file then
          _ <- Auth.log_usage (id current_user) "tts" (String.length (text data))
                 [value (target_language data)] false (Some audio_file) ;;
          raise (HTTPException 500 audio_file)
        else
          let audio_filename := basename audio_file in
          let audio_url := "/audio/" +:+ audio_filename in
          _ <- Auth.log_usage (id current_user) "tts" (String.length (text data))
                 [value (target_language data)] true None ;;
          ret (mkTTSResponse true (text data) Config.SOURCE_LANGUAGE translated
                 (value (target_language data)) audio_filename audio_url
                 (String.length (text data)))).

(** POST /process-file, lines 406-549 (database rows as for /tts). *)
Definition process_file (current_user : user) (file : upload)
    (target_language : string) : M world http_error ProcessFileResponse :=
  handler "Error processing file: " (
    if negb (FileProcessor.has_key target_language Config.TARGET_LANGUAGES) then
      raise (HTTPException 400
               ("Language '" +:+ target_language +:+ "' not supported. Supported: "
                +:+ repr_list (FileProcessor.keys Config.TARGET_LANGUAGES)))
    else
    has_credits <- Auth.check_and_deduct_credits (id current_user) 1 ;;
    if negb has_credits then
      raise (HTTPException 402
               ("Insufficient credits. You have "
                +:+ pretty (credits_remaining current_user)
                +:+ " credits remaining."))
    else
    match FileProcessor.process_file lib (content file) (filename file) with
    | FileProcessor.Failed error _ _ =>
        _ <- Auth.log_usage (id current_user) "process_file" 0
               [target_language] false (Some error) ;;
        raise (HTTPException 400 error)
    | FileProcessor.Extracted text _ format _ _ =>
        if (Config.MAX_TEXT_LENGTH <? N.of_nat (String.length text))%N then
          raise (HTTPException 400
                   ("Text too long. Maximum: 20000 characters. Found: "
                    +:+ pretty (String.length text)))
        else if String.length text <? 1 then
          raise (HTTPException 400 "No text found in file")
        else
        translated <- core (Core.translate_text env text target_language) ;;
        if contains "Error" translated then
          _ <- Auth.log_usage (id current_user) "process_file" (String.length text)
                 [target_language] false (Some translated) ;;
          raise (HTTPException 500 ("Translation error: " +:+ translated))
        else
        audio_file <- core (Core.text_to_speech env translated target_language OUTPUT_DIR) ;;
        if contains "Error" audio_file then
          _ <- Auth.log_usage (id current_user) "process_file" (String.length text)
                 [target_language] false (Some audio_file) ;;
          raise (HTTPException 500 ("TTS error: " +:+ audio_file))
        else
          let audio_filename := basename audio_file in
          let audio_url := "/audio/" +:+ audio_filename in
          _ <- Auth.log_usage (id current_user) "process_file" (String.length text)
                 [target_language] true None ;;
          ret (mkProcessFileResponse true (filename file) format (preview text)
                 Config.SOURCE_LANGUAGE (preview translated) target_language
                 audio_filename audio_url (String.length text))
    end).

(** A request to /translate or /tts as it arrives: the body is validated
    against the request model before the handler runs; a body that does
    not validate is answered 422 and the handler is not called (the list
    of validation errors in the answer is not modelled). *)
Definition post {A} (endpoint : user -> TranslateRequest -> M world http_error A)
    (current_user : user) (raw_text raw_target_language : string)
    : M world http_error A :=
  match validate raw_text raw_target_language with
  | Some data => endpoint current_user data
  | None => raise (mkHttpError 422 "Unprocessable Entity")
  end.

End Endpoints.

End Api.

(* ===================================================================== *)
(** * auth.py: registration, login and token verification *)
(* ===================================================================== *)

Module AuthService.

Import Core Api.

(** [response.user] and [response.session] of the authentication
    provider. *)
Record auth_user := mkAuthUser {
  user_id : string;
  user_email : string
}.

Record session := mkSession {
  access_token : string;
  refresh_token : string
}.

Record auth_response := mkAuthResponse {
  response_user : option auth_user;
  response_session : option session
}.

(** A row of [user_profiles] as the code reads it: [.get(key)] answers the
    value or [None]. *)
Record profile := mkProfile {
  tier : option string;
  profile_credits_remaining : option Z;
  credits_limit : option Z
}.

(** The managed provider and the web framework, as far as the code
    observes them. *)
Record provider := mkProvider {
  (* supabase.auth.sign_up({...}) *)
  auth_sign_up : string -> string -> option string -> result exn auth_response;
  (* supabase.auth.sign_in_with_password({...}) *)
  auth_sign_in_with_password : string -> string -> result exn auth_response;
  (* supabase.auth.get_user(token): the user, or None when [user] or
     [user.user] is None *)
  auth_get_user : string -> result exn (option auth_user);
  (* supabase.table("user_profiles").select("*").eq("id", id).single()
       .execute().data: the row, or None when there is no data *)
  select_profile : string -> result exn (option profile);
  (* str(HTTPException(status_code, detail)) *)
  http_exception_str : nat -> string -> string
}.

(** The dictionaries the three functions return. *)
Record sign_up_result := mkSignUpResult {
  su_id : string;
  su_email : string;
  su_full_name : option string;
  su_access_token : option string;
  su_refresh_token : option string;
  su_message : string
}.

Record sign_in_result := mkSignInResult {
  si_id : string;
  si_email : string;
  si_tier : option string;
  si_credits_remaining : option Z;
  si_access_token : string;
  si_refresh_token : string
}.

Record current_user := mkCurrentUser {
  cu_id : string;
  cu_email : string;
  cu_tier : option string;
  cu_credits_remaining : option Z;
  cu_credits_limit : option Z
}.

(** The failure of [None.access_token]. *)
Definition NO_ACCESS_TOKEN : string :=
  "'NoneType' object has no attribute 'access_token'".

Section WithProvider.

Variable sb : provider.

(** The body of the [try] of [sign_up]. *)
Definition sign_up_body (email password : string) (full_name : option string)
    : result exception sign_up_result :=
  match auth_sign_up sb email password full_name with
  | Raised e => Raised (Exception e)
  | Returned response =>
      match response_user response with
      | None =>
          Raised (HTTPException 400
                    "Failed to create user. Email might already be registered.")
      | Some u =>
          Returned (mkSignUpResult (user_id u) (user_email u) full_name
                      (option_map access_token (response_session response))
                      (option_map refresh_token (response_session response))
                      "User created successfully. Please check your email to verify your account.")
      end
  end.

(** [sign_up] has one [except] clause, [except Exception as e], which also
    catches the [HTTPException] raised by its own body. *)
Definition sign_up (email password : string) (full_name : option string)
    : result http_error sign_up_result :=
  match sign_up_body email password full_name with
  | Returned r => Returned r
  | Raised (HTTPException s d) =>
      Raised (mkHttpError 400 ("Registration error: " +:+ http_exception_str sb s d))
  | Raised (Exception m) => Raised (mkHttpError 400 ("Registration error: " +:+ m))
  end.

(** The body of the [try] of [sign_in]. *)
Definition sign_in_body (email password : string)
    : result exception sign_in_result :=
  match auth_sign_in_with_password sb email password with
  | Raised e => Raised (Exception e)
  | Returned response =>
      match response_user response with
      | None => Raised (HTTPException 401 "Invalid credentials")
      | Some u =>
          match select_profile sb (user_id u) with
          | Raised e => Raised (Exception e)
          | Returned data =>
              match response_session response with
              | None => Raised (Exception NO_ACCESS_TOKEN)
              | Some s =>
                  Returned
                    (mkSignInResult (user_id u) (user_email u)
                       (match data with Some p => tier p | None => Some "free" end)
                       (match data with
                        | Some p => profile_credits_remaining p
                        | None => Some 0%Z
                        end)
                       (access_token s) (refresh_token s))
              end
          end
      end
  end.

(** [except HTTPException: raise] and
    [except Exception as e: raise HTTPException(401, ...)]. *)
Definition sign_in (email password : string) : result http_error sign_in_result :=
  match sign_in_body email password with
  | Returned r => Returned r
  | Raised (HTTPException s d) => Raised (mkHttpError s d)
  | Raised (Exception m) => Raised (mkHttpError 401 ("Login error: " +:+ m))
  end.

(** The body of the [try] of [get_current_user]. *)
Definition get_current_user_body (token : string) : result exception current_user :=
  match auth_get_user sb token with
  | Raised e => Raised (Exception e)
  | Returned None => Raised (HTTPException 401 "Invalid authentication credentials")
  | Returned (Some u) =>
      match select_profile sb (user_id u) with
      | Raised e => Raised (Exception e)
      | Returned None => Raised (HTTPException 404 "User profile not found")
      | Returned (Some p) =>
          Returned (mkCurrentUser (user_id u) (user_email u) (tier p)
                      (profile_credits_remaining p) (credits_limit p))
      end
  end.

Definition get_current_user (token : string) : result http_error current_user :=
  match get_current_user_body token with
  | Returned r => Returned r
  | Raised (HTTPException s d) => Raised (mkHttpError s d)
  | Raised (Exception m) =>
      Raised (mkHttpError 401 ("Could not validate credentials: " +:+ m))
  end.

(** [get_user_profile]: the row, or None when there is none or when the
    query fails. *)
Definition get_user_profile (user_id : string) : option profile :=
  match select_profile sb user_id with
  | Returned (Some p) => Some p
  | Returned None => None
  | Raised _ => None
  end.

End WithProvider.

End AuthService.

(* ===================================================================== *)
(** * What a call may change *)
(* ===================================================================== *)

Module Frames.

Import Core.

(** A request for a translation into [lang]; a request for speech in
    [lang]. *)
Definition is_translate_to (lang : string) (c : call) : Prop :=
  exists text, c = Translate lang text.

Definition is_speak_in (lang : string) (c : call) : Prop :=
  exists text, c = Speak lang text.

(** Between [w] and [w'] requests that satisfy [P] were sent, and nothing
    else happened. *)
Definition sends_only (P : call -> Prop) (w w' : world) : Prop :=
  exists new, w' = after_calls w new /\ Forall P new.

(** Between [w] and [w'] requests that satisfy [P] were sent and audio
    files were written or removed, and nothing else happened. *)
Definition sends_and_writes_only (P : call -> Prop) (w w' : world) : Prop :=
  exists new fs, w' = with_files (fun _ => fs) (after_calls w new) /\ Forall P new.

(** No file was added or changed, files may be gone. *)
Definition no_new_file (w w' : world) : Prop := files w' ⊆ files w.

(** A string that is empty or begins with a character that is not a
    space. *)
Definition starts_clean (s : string) : Prop :=
  match s with
  | EmptyString => True
  | String c _ => isspace c = false
  end.

End Frames.

(* ===================================================================== *)
(** * Concrete services and inputs *)
(* ===================================================================== *)

Module Samples.

Import Core.

(** A translator that answers every request with the request itself, and a
    synthesiser that answers with one sample per character. *)
Definition identity_services : services :=
  mkServices (fun _ => None)
             (fun _ text => Returned text)
             (fun _ text => Returned (List.repeat 0%Z (String.length text)))
             true.

(** A world with nothing in it. *)
Definition empty_world : world :=
  mkWorld [] ∅ "20240101_120000" ∅ true [].

(** Two paragraphs of 3000 characters. *)
Definition two_paragraphs : string :=
  repeat "a" 3000 +:+ Chunker.PARAGRAPH_SEP +:+ repeat "b" 3000.

(** Three sentences in one paragraph, two of them of 3000 characters. *)
Definition three_sentences : string :=
  repeat "a" 3000 +:+ ". " +:+ repeat "b" 3000 +:+ ". " +:+ repeat "c" 100.

(** A short sentence followed by one word of 4500 characters. *)
Definition sentence_then_word : string := "a. " +:+ repeat "b" 4500.

(** One word of 4501 characters, and one of 5000. *)
Definition long_word : string := repeat "a" 4501.
Definition longer_word : string := repeat "a" 5000.

(** A translator that is built but fails every request with [message]. *)
Definition failing_services (message : string) : services :=
  mkServices (fun _ => None)
             (fun _ _ => Raised message)
             (fun _ text => Returned (List.repeat 0%Z (String.length text)))
             true.

(** A world in which user [u1] holds three credits. *)
Definition funded_world : world :=
  mkWorld [] ∅ "20240101_120000" {[ "u1" := 3%Z ]} true [].

Definition u1 : Api.user := Api.mkUser "u1" 3.

(** Parsers that find the same text in every file. *)
Definition constant_extractors (found : string) : FileProcessor.extractors :=
  FileProcessor.mkExtractors
    (fun _ => Returned found) (fun _ => Returned found) (fun _ => Returned found)
    (fun _ => Returned found) (fun _ => Returned found) (fun _ => Returned found).

(** Paragraphs of 2000, 2497 and 1 characters. *)
Definition three_paragraphs : string :=
  repeat "a" 2000 +:+ Chunker.PARAGRAPH_SEP +:+ repeat "b" 2497
  +:+ Chunker.PARAGRAPH_SEP +:+ "c".

(** Services that refuse, with [quota], every text that begins with [b]. *)
Definition picky_services : services :=
  mkServices (fun _ => None)
             (fun _ text => if startswith "b" text then Raised "quota"
                            else Returned text)
             (fun _ text => if startswith "b" text then Raised "quota"
                            else Returned (List.repeat 0%Z (String.length text)))
             true.


(** Services whose translator cannot be built. *)
Definition unbuildable_services (message : string) : services :=
  mkServices (fun _ => Some message)
             (fun _ text => Returned text)
             (fun _ text => Returned (List.repeat 0%Z (String.length text)))
             true.


(** Parsing libraries that find the same things in every file: a text
    with blanks around it, two pages or paragraphs, a small document, two
    rows, one sheet with two rows. *)
Definition sample_libraries : Extractors.libraries :=
  Extractors.mkLibraries
    (fun _ => "  hello world  ")
    (fun _ => Returned ["page one "; " page two"])
    (fun _ => Returned ["Title"; "   "; "Body "])
    (fun _ => Returned (Extractors.JDict
                          [("title", Extractors.JString " Hello");
                           ("tags", Extractors.JList [Extractors.JString "a";
                                                      Extractors.JNumber "1"]);
                           ("n", Extractors.JNull)]))
    (fun _ => Returned [["a"; " b "; ""]; [" "; ""]])
    (fun _ => Returned [("Sheet1", [[Some "1"; None; Some " x "]; [None]])]).

(** A provider that knows one user, [ann], who has no profile row. *)
Definition ann : AuthService.auth_user := AuthService.mkAuthUser "u7" "ann@example.com".

Definition provider_without_profile : AuthService.provider :=
  AuthService.mkProvider
    (fun _ _ _ => Returned (AuthService.mkAuthResponse None None))
    (fun _ _ => Returned (AuthService.mkAuthResponse (Some ann) None))
    (fun _ => Returned (Some ann))
    (fun _ => Returned None)
    (fun status detail => pretty status +:+ ": " +:+ detail).

(** Libraries that find two rows of blank cells in every CSV file. *)
Definition blank_csv_libraries : Extractors.libraries :=
  Extractors.mkLibraries
    (fun _ => "")
    (fun _ => Returned [])
    (fun _ => Returned [])
    (fun _ => Returned Extractors.JNull)
    (fun _ => Returned [[" "; ""]; []; ["  "]])
    (fun _ => Returned []).

End Samples.

(* ===================================================================== *)
(** * Facts about the string primitives *)
(* ===================================================================== *)

Section PyStrFacts.

Lemma append_nil_l (s : string) : "" +:+ s = s.
Proof. reflexivity. Qed.

Lemma append_cons (c : ascii) (a b : string) :
  String c a +:+ b = String c (a +:+ b).
Proof. reflexivity. Qed.

Lemma append_empty_r (s : string) : s +:+ "" = s.
Proof.
  induction s as [|c s IH]; [reflexivity|].
  now rewrite append_cons, IH.
Qed.

Lemma append_assoc (a b c : string) : (a +:+ b) +:+ c = a +:+ (b +:+ c).
Proof.
  induction a as [|x a IH]; [reflexivity|].
  now rewrite !append_cons, IH.
Qed.

Lemma length_append (a b : string) :
  String.length (a +:+ b) = String.length a + String.length b.
Proof.
  induction a as [|x a IH]; [reflexivity|].
  rewrite append_cons. cbn [String.length]. now rewrite IH.
Qed.

Lemma startswith_drop (p s : string) :
  startswith p s = true -> p +:+ drop (String.length p) s = s.
Proof.
  unfold startswith. revert s.
  induction p as [|c p IH]; intros s H; [reflexivity|].
  destruct s as [|d s]; cbn in H; [discriminate|].
  destruct (ascii_dec c d) as [->|]; [|discriminate].
  rewrite append_cons. cbn [String.length drop]. now rewrite (IH s H).
Qed.

Lemma join_cons (sep x : string) (l : list string) :
  l <> [] -> join sep (x :: l) = x +:+ sep +:+ join sep l.
Proof. destruct l; [congruence | reflexivity]. Qed.

Lemma join_push_front (sep : string) (c : ascii) (l : list string) :
  l <> [] -> join sep (push_front c l) = String c (join sep l).
Proof.
  destruct l as [|x l]; [congruence|]. intros _.
  destruct l; reflexivity.
Qed.

Lemma push_front_not_nil (c : ascii) (l : list string) : push_front c l <> [].
Proof. destruct l; discriminate. Qed.

Lemma split_from_not_nil (sep : string) (s : string) :
  forall skip, split_from sep skip s <> [].
Proof.
  induction s as [|c s IH]; intros skip; cbn [split_from]; [discriminate|].
  destruct skip; [|apply IH].
  destruct (startswith sep (String c s));
    [discriminate | apply push_front_not_nil].
Qed.

Lemma split_not_nil (sep s : string) : split sep s <> [].
Proof. apply split_from_not_nil. Qed.

(** Joining the pieces found after [skip] characters gives back what
    follows these characters. *)
Lemma join_split_from (sep : string) :
  sep <> "" ->
  forall s skip, join sep (split_from sep skip s) = drop skip s.
Proof.
  intros Hsep.
  induction s as [|c s IH]; intros skip.
  - destruct skip; reflexivity.
  - destruct skip as [|k]; cbn [split_from drop]; [|apply IH].
    destruct (startswith sep (String c s)) eqn:Hp.
    + rewrite join_cons by apply split_from_not_nil.
      rewrite IH, append_nil_l.
      apply startswith_drop in Hp.
      destruct sep as [|d sep']; [congruence|].
      cbn [String.length drop] in Hp.
      cbn [String.length]. rewrite Nat.sub_succ, Nat.sub_0_r. exact Hp.
    + rewrite join_push_front by apply split_from_not_nil.
      now rewrite IH.
Qed.

(** [sep.join(s.split(sep)) == s] *)
Lemma join_split (sep s : string) : sep <> "" -> join sep (split sep s) = s.
Proof. intros H. unfold split. now rewrite join_split_from. Qed.

Lemma join_app (sep : string) (l1 l2 : list string) :
  l1 <> [] -> l2 <> [] ->
  join sep (l1 ++ l2) = join sep l1 +:+ sep +:+ join sep l2.
Proof.
  intros H1 H2. induction l1 as [|x l1 IH]; [congruence|].
  destruct l1 as [|y l1].
  - cbn [app]. now rewrite join_cons.
  - rewrite <- app_comm_cons, join_cons by (cbn; discriminate).
    rewrite IH by discriminate.
    rewrite (join_cons sep x (y :: l1)) by discriminate.
    now rewrite !append_assoc.
Qed.

Lemma join_snoc (sep : string) (l : list string) (x : string) :
  l <> [] -> join sep (l ++ [x]) = join sep l +:+ sep +:+ x.
Proof. intros H. now rewrite join_app by (assumption || discriminate). Qed.

End PyStrFacts.

(* ===================================================================== *)
(** * Facts about the chunking loops *)
(* ===================================================================== *)

Section ChunkerFacts.

Import Chunker.

Variable limit : nat.

Lemma PARAGRAPH_SEP_not_empty : PARAGRAPH_SEP <> "".
Proof. discriminate. Qed.

Lemma flush_add_segment_not_nil glue st seg :
  flush glue (add_segment limit glue st seg) <> [].
Proof.
  unfold add_segment, flush.
  destruct (limit <? _); cbn [current_chunk chunks].
  - intros H. now destruct (chunks st), (current_chunk st).
  - destruct (current_chunk st); cbn; intros H;
      now apply app_eq_nil in H as [_ H].
Qed.

Lemma join_snoc_chunk (sep : string) (cs cur : list string) (seg : string) :
  cur <> [] ->
  join sep (cs ++ [join sep (cur ++ [seg])])
  = join sep ((cs ++ [join sep cur]) ++ [seg]).
Proof.
  intros Hcur.
  rewrite (join_snoc sep (cs ++ _)) by (intros H; now apply app_eq_nil in H as [_ H]).
  destruct cs as [|c cs].
  - cbn [app]. now rewrite join_snoc.
  - rewrite !(join_app sep (c :: cs)) by discriminate.
    change (join sep [join sep (cur ++ [seg])]) with (join sep (cur ++ [seg])).
    change (join sep [join sep cur]) with (join sep cur).
    rewrite join_snoc by assumption.
    now rewrite !append_assoc.
Qed.

(** For the text that comes out, one loop step on a paragraph is the same
    as putting the paragraph behind the chunks made so far. *)
Lemma join_flush_add_segment (sep : string) st seg :
  join sep (flush (join sep) (add_segment limit (join sep) st seg))
  = join sep (flush (join sep) st ++ [seg]).
Proof.
  unfold add_segment, flush.
  destruct (limit <? _); cbn [current_chunk chunks].
  - reflexivity.
  - destruct (current_chunk st) as [|x cc] eqn:Hcc; [reflexivity|].
    change (x :: cc ++ [seg]) with ((x :: cc) ++ [seg]).
    destruct ((x :: cc) ++ [seg]) eqn:E; [now destruct cc|].
    rewrite <- E. now apply join_snoc_chunk.
Qed.

Lemma join_app_cong (sep : string) (l1 l1' l2 : list string) :
  l1 <> [] -> l1' <> [] -> join sep l1 = join sep l1' ->
  join sep (l1 ++ l2) = join sep (l1' ++ l2).
Proof.
  intros H1 H1' E. destruct l2 as [|y l2]; [now rewrite !app_nil_r|].
  now rewrite !join_app, E by (assumption || discriminate).
Qed.

Lemma join_flush_fold (sep : string) (ps : list string) :
  forall st,
    join sep (flush (join sep) (fold_left (add_segment limit (join sep)) ps st))
    = join sep (flush (join sep) st ++ ps).
Proof.
  induction ps as [|p ps IH]; intros st; cbn [fold_left].
  - now rewrite app_nil_r.
  - rewrite IH.
    replace (flush (join sep) st ++ p :: ps)
      with ((flush (join sep) st ++ [p]) ++ ps) by now rewrite <- app_assoc.
    apply join_app_cong.
    + apply flush_add_segment_not_nil.
    + intros H. now apply app_eq_nil in H as [_ H].
    + apply join_flush_add_segment.
Qed.

(** Paragraphs within the limit never reach the sentence loop. *)
Lemma fold_add_paragraph_short (ps : list string) :
  Forall (fun p => String.length p <= limit) ps ->
  forall st,
    fold_left (add_paragraph limit) ps st
    = fold_left (add_segment limit (join PARAGRAPH_SEP)) ps st.
Proof.
  induction 1 as [|p ps Hp _ IH]; intros st; cbn [fold_left]; [reflexivity|].
  rewrite <- IH. f_equal. unfold add_paragraph.
  now rewrite (proj2 (Nat.ltb_ge _ _) Hp).
Qed.

(** When no paragraph is longer than the limit, the chunks joined by the
    paragraph separator are the text. *)
Lemma join_translate_chunks (text : string) :
  Forall (fun p => String.length p <= limit) (split PARAGRAPH_SEP text) ->
  join PARAGRAPH_SEP (translate_chunks limit text) = text.
Proof.
  intros H. unfold translate_chunks.
  rewrite (fold_add_paragraph_short _ H), join_flush_fold.
  cbn [flush init current_chunk chunks app].
  apply join_split, PARAGRAPH_SEP_not_empty.
Qed.

End ChunkerFacts.

(* ===================================================================== *)
(** * Facts about the effects *)
(* ===================================================================== *)

Section EffFacts.

Context {W E : Type}.

(** A relation between stores that every step of a loop respects is
    respected by the loop. *)
Lemma for_each_preserves {A B} (R : W -> W -> Prop)
    (body : B -> A -> M W E B) (l : list A) :
  (forall w, R w w) ->
  (forall w1 w2 w3, R w1 w2 -> R w2 w3 -> R w1 w3) ->
  (forall acc x w, R w (body acc x w).2) ->
  forall acc w, R w (for_each body l acc w).2.
Proof.
  intros Hrefl Htrans Hbody.
  induction l as [|x l IH]; intros acc w; cbn [for_each]; [apply Hrefl|].
  unfold bind. specialize (Hbody acc x w).
  destruct (body acc x w) as [[a|e] w1]; cbn [snd] in *; [|exact Hbody].
  eapply Htrans; [exact Hbody | apply IH].
Qed.

End EffFacts.

(* ===================================================================== *)
(** * Facts about Core.translate_text *)
(* ===================================================================== *)

Section TranslateFacts.

Import Core Chunker.

Variable env : services.

Lemma after_calls_nil w : after_calls w [] = w.
Proof. destruct w. unfold after_calls, with_calls. cbn. now rewrite app_nil_r. Qed.

Lemma after_calls_app w l1 l2 :
  after_calls (after_calls w l1) l2 = after_calls w (l1 ++ l2).
Proof. unfold after_calls, with_calls. cbn. now rewrite app_assoc. Qed.

Lemma translate_call_eq target text w :
  translate_call env target text w
  = (translator_translate env target text, after_calls w [Translate target text]).
Proof. reflexivity. Qed.

(** While the translator answers, the loop sends the chunks in order and
    collects the answers in the same order. *)
Lemma translate_each_returned target (tr : string -> string) (chunks : list string) :
  (forall c, In c chunks -> translator_translate env target c = Returned (tr c)) ->
  forall acc w,
    for_each (fun translated_chunks chunk =>
                bind (translate_call env target chunk)
                     (fun translated => ret (translated_chunks ++ [translated])))
             chunks acc w
    = (Returned (acc ++ map tr chunks),
       after_calls w (map (Translate target) chunks)).
Proof.
  induction chunks as [|c chunks IH]; intros H acc w; cbn [for_each map].
  - now rewrite app_nil_r, after_calls_nil.
  - unfold bind at 1. unfold bind at 1.
    rewrite translate_call_eq, (H c (or_introl eq_refl)).
    cbn [ret]. rewrite IH by (intros; apply H; now right).
    rewrite after_calls_app, <- app_assoc. reflexivity.
Qed.

(** At the first chunk the translator refuses, the loop stops. *)
Lemma translate_each_raised target (tr : string -> string)
    (before after : list string) (bad : string) (e : exn) :
  (forall c, In c before -> translator_translate env target c = Returned (tr c)) ->
  translator_translate env target bad = Raised e ->
  forall acc w,
    for_each (fun translated_chunks chunk =>
                bind (translate_call env target chunk)
                     (fun translated => ret (translated_chunks ++ [translated])))
             (before ++ bad :: after) acc w
    = (Raised e, after_calls w (map (Translate target) (before ++ [bad]))).
Proof.
  intros Hbefore Hbad.
  induction before as [|c before IH]; intros acc w; cbn [for_each app map].
  - unfold bind at 1. unfold bind at 1.
    now rewrite translate_call_eq, Hbad.
  - unfold bind at 1. unfold bind at 1.
    rewrite translate_call_eq, (Hbefore c (or_introl eq_refl)).
    cbn [ret]. rewrite IH by (intros; apply Hbefore; now right).
    now rewrite after_calls_app.
Qed.

(** Towards the source language nothing is sent. *)
Lemma translate_text_source text w :
  Core.translate_text env text source_language w = (Returned text, w).
Proof.
  unfold Core.translate_text, try_except, translate_text_body.
  destruct (String.length text <=? MAX_CHUNK_SIZE); reflexivity.
Qed.


(** The long path while the translator answers. *)
Lemma translate_text_long text lang (tr : string -> string) w :
  MAX_CHUNK_SIZE < String.length text ->
  String.eqb lang source_language = false ->
  translator_init env lang = None ->
  (forall c, In c (translate_chunks MAX_CHUNK_SIZE text) ->
             translator_translate env lang c = Returned (tr c)) ->
  Core.translate_text env text lang w
  = (Returned (join PARAGRAPH_SEP (map tr (translate_chunks MAX_CHUNK_SIZE text))),
     after_calls w (map (Translate lang) (translate_chunks MAX_CHUNK_SIZE text))).
Proof.
  intros Htext Hlang Hinit Htr.
  unfold Core.translate_text, try_except, translate_text_body.
  rewrite (proj2 (Nat.leb_gt _ _) Htext), Hlang.
  unfold bind at 1, new_translator. rewrite Hinit.
  unfold ret at 1. unfold bind at 1, translate_each.
  now rewrite (translate_each_returned lang tr _ Htr).
Qed.

(** The long path when the translator refuses a chunk: the outcome is the
    error string, and nothing of what was translated before is returned. *)
Lemma translate_text_long_raised text lang (tr : string -> string)
    (before after : list string) (bad : string) (e : exn) w :
  MAX_CHUNK_SIZE < String.length text ->
  String.eqb lang source_language = false ->
  translator_init env lang = None ->
  translate_chunks MAX_CHUNK_SIZE text = (before ++ bad :: after)%list ->
  (forall c, In c before -> translator_translate env lang c = Returned (tr c)) ->
  translator_translate env lang bad = Raised e ->
  translate_text env text lang w
  = (Returned ("Translation error: " +:+ e),
     after_calls w (map (Translate lang) (before ++ [bad]))).
Proof.
  intros Htext Hlang Hinit Hchunks Hbefore Hbad.
  unfold translate_text, try_except, translate_text_body.
  rewrite (proj2 (Nat.leb_gt _ _) Htext), Hlang, Hchunks.
  unfold bind at 1, new_translator. rewrite Hinit.
  unfold ret at 1. unfold bind at 1, translate_each.
  now rewrite (translate_each_raised lang tr before after bad e Hbefore Hbad).
Qed.

End TranslateFacts.

(* ===================================================================== *)
(** * Facts about Core.text_to_speech *)
(* ===================================================================== *)

Section SpeechFacts.

Import Core Chunker.

Variable env : services.


Lemma with_files_after_calls fs g w l :
  with_files (fun _ => fs) (after_calls (with_files g w) l)
  = with_files (fun _ => fs) (after_calls w l).
Proof. reflexivity. Qed.


(** One round of the loop when the synthesiser answers: the request goes
    out, the answer is appended to the audio built so far, and the
    temporary file is gone again. *)
Lemma speak_chunk_returned lang output_dir timestamp combined i chunk mp3 w :
  gtts_save env lang chunk = Returned mp3 ->
  exists fs,
    fs ⊆ files w
    /\ speak_chunk env lang output_dir timestamp combined (i, chunk) w
       = (Returned (combined ++ mp3),
          with_files (fun _ => fs) (after_calls w [Speak lang chunk])).
Proof.
  intros H. eexists. split; [|].
  2:{ unfold speak_chunk, tts_save, from_mp3, bind, modify, lift, get, ret.
      cbn [fst snd]. rewrite H. cbn [files with_files with_calls].
      rewrite lookup_insert_eq. reflexivity. }
  cbn [files with_files with_calls after_calls].
  rewrite delete_insert_eq. apply delete_subseteq.
Qed.

(** One round of the loop when the synthesiser refuses. *)
Lemma speak_chunk_raised lang output_dir timestamp combined i chunk e w :
  gtts_save env lang chunk = Raised e ->
  speak_chunk env lang output_dir timestamp combined (i, chunk) w
  = (Raised e, after_calls w [Speak lang chunk]).
Proof.
  intros H. unfold speak_chunk, tts_save, bind, modify, lift.
  cbn [fst snd]. now rewrite H.
Qed.




End SpeechFacts.

(* ===================================================================== *)
(** * Facts about what a computation leaves untouched *)
(* ===================================================================== *)

Section Preservation.

Context {W : Type} (R : W -> W -> Prop).
Hypothesis R_refl : forall w, R w w.
Hypothesis R_trans : forall w1 w2 w3, R w1 w2 -> R w2 w3 -> R w1 w3.

Lemma preserves_ret {E A} (a : A) : preserves R (@ret W E A a).
Proof. intros w. apply R_refl. Qed.

Lemma preserves_raise {E A} (e : E) : preserves R (@raise W E A e).
Proof. intros w. apply R_refl. Qed.


Lemma preserves_get {E} : preserves R (@get W E).
Proof. intros w. apply R_refl. Qed.


Lemma preserves_bind {E A B} (c : M W E A) (k : A -> M W E B) :
  preserves R c -> (forall a, preserves R (k a)) -> preserves R (bind c k).
Proof.
  intros Hc Hk w. unfold bind. specialize (Hc w).
  destruct (c w) as [[a|e] w1]; cbn [snd] in *; [|exact Hc].
  eapply R_trans; [exact Hc | apply Hk].
Qed.

Lemma preserves_try_except {E E' A} (c : M W E A) (h : E -> M W E' A) :
  preserves R c -> (forall e, preserves R (h e)) -> preserves R (try_except c h).
Proof.
  intros Hc Hh w. unfold try_except. specialize (Hc w).
  destruct (c w) as [[a|e] w1]; cbn [snd] in *; [exact Hc|].
  eapply R_trans; [exact Hc | apply Hh].
Qed.

Lemma preserves_for_each {E A B} (body : B -> A -> M W E B) (l : list A) :
  (forall acc x, preserves R (body acc x)) ->
  forall acc, preserves R (for_each body l acc).
Proof.
  intros Hbody acc w.
  apply (for_each_preserves R body l R_refl R_trans (fun a x => Hbody a x)).
Qed.

End Preservation.

(** A computation wrapped in [try_except] with a handler that returns
    always returns. *)
Lemma try_except_returns {W E E' A} (c : M W E A) (f : E -> A) (w : W) :
  exists a, (try_except c (fun e => @ret W E' A (f e)) w).1 = Returned a.
Proof.
  unfold try_except. destruct (c w) as [[a|e] w1]; cbn; eauto.
Qed.

(* ===================================================================== *)
(** * Facts about the credit check and the endpoints *)
(* ===================================================================== *)

Section EndpointFacts.

Import Core Models Auth Api.

Variable env : services.
Variable lib : FileProcessor.extractors.



Lemma check_and_deduct_credits_eq {E} user_id credits_needed w :
  @check_and_deduct_credits E user_id credits_needed w
  = if covered w user_id credits_needed
    then (Returned true, charged w user_id credits_needed)
    else (Returned false, w).
Proof.
  unfold check_and_deduct_credits, rpc_check_and_deduct_credits,
    try_except, bind, get, covered, charged.
  destruct (ledger_online w); cbn [negb andb]; [|reflexivity].
  destruct (ledger w !! user_id) as [balance|]; [|reflexivity].
  now destruct (credits_needed <=? balance)%Z.
Qed.

Lemma log_usage_eq {E} user_id action chars targets ok err w :
  @log_usage E user_id action chars targets ok err w
  = (Returned tt, logged w (mkUsage user_id action chars targets 1 ok err)).
Proof.
  unfold log_usage, logged, bind, get. now destruct (ledger_online w).
Qed.






(** POST /translate, step by step. *)
Lemma translate_endpoint_eq current_user data w :
  Api.translate_text env current_user data w
  = if covered w (id current_user) 1 then
      match Core.translate_text env (text data) (value (target_language data))
              (charged w (id current_user) 1) with
      | (Returned translated, w2) =>
          if contains "Error" translated then
            (Raised (mkHttpError 500 translated),
             logged w2 (mkUsage (id current_user) "translate" (String.length (text data))
                          [value (target_language data)] 1 false (Some translated)))
          else
            (Returned (mkTranslateResponse true (text data) Config.SOURCE_LANGUAGE
                         translated (value (target_language data))),
             logged w2 (mkUsage (id current_user) "translate" (String.length (text data))
                          [value (target_language data)] 1 true None))
      | (Raised e, w2) => (Raised (mkHttpError 500 ("Translation error: " +:+ e)), w2)
      end
    else
      (Raised (mkHttpError 402
                 ("Insufficient credits. You have "
                  +:+ pretty (credits_remaining current_user)
                  +:+ " credits remaining. Upgrade your plan to continue.")), w).
Proof.
  unfold Api.translate_text, handler. unfold try_except at 1. unfold bind at 1.
  rewrite check_and_deduct_credits_eq.
  destruct (covered w (id current_user) 1); [|reflexivity]. cbn [negb].
  unfold bind at 1, core. unfold try_except at 1.
  destruct (Core.translate_text env _ _ _) as [[translated|e] w2]; [|reflexivity].
  destruct (contains "Error" translated); unfold bind;
    rewrite log_usage_eq; reflexivity.
Qed.

(** POST /tts, step by step. *)
Lemma tts_endpoint_eq current_user data w :
  Api.text_to_speech env current_user data w
  = if covered w (id current_user) 1 then
      match Core.translate_text env (text data) (value (target_language data))
              (charged w (id current_user) 1) with
      | (Returned translated, w2) =>
          if contains "Error" translated then
            (Raised (mkHttpError 500 translated),
             logged w2 (mkUsage (id current_user) "tts" (String.length (text data))
                          [value (target_language data)] 1 false (Some translated)))
          else
            match Core.text_to_speech env translated (value (target_language data))
                    OUTPUT_DIR w2 with
            | (Returned audio_file, w3) =>
                if contains "Error" audio_file then
                  (Raised (mkHttpError 500 audio_file),
                   logged w3 (mkUsage (id current_user) "tts" (String.length (text data))
                                [value (target_language data)] 1 false (Some audio_file)))
                else
                  (Returned (mkTTSResponse true (text data) Config.SOURCE_LANGUAGE
                               translated (value (target_language data))
                               (basename audio_file) ("/audio/" +:+ basename audio_file)
                               (String.length (text data))),
                   logged w3 (mkUsage (id current_user) "tts" (String.length (text data))
                                [value (target_language data)] 1 true None))
            | (Raised e, w3) => (Raised (mkHttpError 500 ("TTS error: " +:+ e)), w3)
            end
      | (Raised e, w2) => (Raised (mkHttpError 500 ("TTS error: " +:+ e)), w2)
      end
    else
      (Raised (mkHttpError 402
                 ("Insufficient credits. You have "
                  +:+ pretty (credits_remaining current_user)
                  +:+ " credits remaining.")), w).
Proof.
  unfold Api.text_to_speech, handler. unfold try_except at 1. unfold bind at 1.
  rewrite check_and_deduct_credits_eq.
  destruct (covered w (id current_user) 1); [|reflexivity]. cbn [negb].
  unfold bind at 1, core. unfold try_except at 1.
  destruct (Core.translate_text env _ _ _) as [[translated|e] w2]; [|reflexivity].
  destruct (contains "Error" translated).
  { unfold bind. rewrite log_usage_eq. reflexivity. }
  unfold bind at 1. unfold try_except at 1.
  destruct (Core.text_to_speech env _ _ _ _) as [[audio_file|e] w3]; [|reflexivity].
  destruct (contains "Error" audio_file); unfold bind;
    rewrite log_usage_eq; reflexivity.
Qed.



Lemma process_file_endpoint_bad_language current_user file lang w :
  FileProcessor.has_key lang Config.TARGET_LANGUAGES = false ->
  Api.process_file env lib current_user file lang w
  = (Raised (mkHttpError 400
               ("Language '" +:+ lang +:+ "' not supported. Supported: "
                +:+ repr_list (FileProcessor.keys Config.TARGET_LANGUAGES))), w).
Proof.
  intros Hlang. unfold Api.process_file, handler.
  unfold try_except at 1. now rewrite Hlang.
Qed.

End EndpointFacts.

(* ===================================================================== *)
(** * Facts about dictionaries, enumerations and file names *)
(* ===================================================================== *)

Section LookupFacts.

Import FileProcessor Models.

Lemma has_key_In (k : string) (d : list (string * string)) :
  has_key k d = true <-> In k (keys d).
Proof.
  unfold has_key. rewrite existsb_exists. split.
  - intros [x [Hx Heq]]. apply String.eqb_eq in Heq. now subst.
  - intros H. exists k. split; [exact H | apply String.eqb_refl].
Qed.

Lemma has_key_not_In (k : string) (d : list (string * string)) :
  ~ In k (keys d) -> has_key k d = false.
Proof.
  intros H. destruct (has_key k d) eqn:E; [|reflexivity].
  now apply has_key_In in E.
Qed.

Lemma of_value_Some (code : string) (m : TargetLanguage) :
  of_value code = Some m -> value m = code /\ In m members.
Proof.
  unfold of_value. intros H. apply find_some in H as [Hin Heq].
  apply String.eqb_eq in Heq. now split.
Qed.

Lemma of_value_None (code : string) :
  ~ In code (map value members) -> of_value code = None.
Proof.
  intros H. destruct (of_value code) as [m|] eqn:E; [|reflexivity].
  apply of_value_Some in E as [<- Hin]. exfalso. apply H. now apply in_map.
Qed.

Lemma validate_None (raw_text code : string) :
  of_value code = None -> validate raw_text code = None.
Proof. unfold validate. intros ->. now destruct (_ && _)%bool. Qed.

Lemma startswith_dot (c : ascii) (s : string) :
  startswith "." (String c s) = if Ascii.eqb c "." then true else false.
Proof.
  unfold startswith. cbn [String.prefix].
  destruct (ascii_dec "." c) as [<-|Hne]; [now destruct s|].
  destruct (Ascii.eqb c ".") eqn:E; [|reflexivity].
  apply Ascii.eqb_eq in E. congruence.
Qed.

Lemma split_dot_cons (c : ascii) (s : string) :
  split "." (String c s)
  = if Ascii.eqb c "." then "" :: split "." s else push_front c (split "." s).
Proof.
  unfold split. cbn [split_from]. rewrite startswith_dot.
  now destruct (Ascii.eqb c ".").
Qed.

(** A name without a dot is one piece. *)
Lemma split_dot_none (s : string) :
  contains "." s = false -> split "." s = [s].
Proof.
  induction s as [|c s IH]; [reflexivity|].
  cbn [contains]. rewrite startswith_dot, split_dot_cons.
  destruct (Ascii.eqb c "."); [discriminate|].
  cbn [orb]. intros H. now rewrite (IH H).
Qed.

(** The pieces of [stem.suffix] end with the pieces of [suffix]. *)
Lemma split_dot_app (stem suffix : string) :
  exists pieces,
    pieces <> []
    /\ split "." (stem +:+ "." +:+ suffix) = (pieces ++ split "." suffix)%list.
Proof.
  induction stem as [|c stem [pieces [Hne IH]]].
  - exists [""]. split; [discriminate|]. rewrite append_nil_l.
    change ("." +:+ suffix) with (String "." suffix).
    now rewrite split_dot_cons.
  - rewrite append_cons, split_dot_cons, IH.
    destruct (Ascii.eqb c ".").
    + exists ("" :: pieces). now split.
    + destruct pieces as [|p pieces]; [congruence|].
      exists (String c p :: pieces). now split.
Qed.

(** The extension is the lowercased text after the last dot. *)
Lemma get_file_extension_suffix (stem suffix : string) :
  contains "." suffix = false ->
  get_file_extension (stem +:+ "." +:+ suffix) = lower suffix.
Proof.
  intros H. unfold get_file_extension.
  destruct (split_dot_app stem suffix) as [pieces [_ ->]].
  now rewrite (split_dot_none _ H), last_last.
Qed.

Lemma supported_keys : keys SUPPORTED_FORMATS = (listed_formats ++ ["xls"])%list.
Proof. reflexivity. Qed.

(** Every key of [SUPPORTED_FORMATS] has its branch in the chain. *)
Lemma dispatch_supported (lib : extractors) (ext : string) :
  In ext (keys SUPPORTED_FORMATS) -> exists extract, dispatch lib ext = Some extract.
Proof.
  cbn [keys SUPPORTED_FORMATS map fst In].
  intros H. repeat (destruct H as [<-|H]; [eexists; reflexivity|]). destruct H.
Qed.

End LookupFacts.

(* ===================================================================== *)
(** * Facts about the packing *)
(* ===================================================================== *)

Section PackingFacts.

Import Chunker.

Variable limit : nat.

Lemma flush_close glue st :
  flush glue st = (chunks st ++ map glue (close (current_chunk st)))%list.
Proof.
  unfold flush, close. destruct (current_chunk st); [|reflexivity].
  now rewrite app_nil_r.
Qed.

(** The sentence loop is the segment loop on the stripped, non-empty
    sentences. *)
Lemma fold_add_sentence glue (pieces : list string) :
  forall st,
    fold_left (add_sentence limit glue) pieces st
    = fold_left (add_segment limit glue) (sentences pieces) st.
Proof.
  unfold sentences.
  induction pieces as [|piece pieces IH]; intros st; [reflexivity|].
  cbn [fold_left map List.filter].
  change (add_sentence limit glue st piece)
    with (if nonempty (strip piece)
          then add_segment limit glue st (strip piece) else st).
  destruct (nonempty (strip piece)); cbn [fold_left]; apply IH.
Qed.

(** With one way of joining, the chunks are the joined groups. *)
Lemma flush_fold_add_segment glue (segs : list string) :
  forall st,
    flush glue (fold_left (add_segment limit glue) segs st)
    = (chunks st
       ++ map glue (pack_from limit (current_chunk st) (current_length st) segs))%list.
Proof.
  induction segs as [|seg segs IH]; intros st; cbn [fold_left pack_from].
  - apply flush_close.
  - rewrite IH. unfold add_segment.
    destruct (limit <? _); cbn [chunks current_chunk current_length];
      [|reflexivity].
    now rewrite flush_close, map_app, app_assoc.
Qed.

Lemma glued_close (sep : string) (current : list string) :
  sep = " " \/ sep = PARAGRAPH_SEP ->
  Forall2 glued (map (join sep) (close current)) (close current).
Proof.
  intros Hsep. destruct current as [|x current]; cbn; constructor; [|constructor].
  unfold glued. destruct Hsep as [->| ->]; auto.
Qed.

(** One step of a loop of [Core.translate_text], whatever comes after it. *)
Lemma add_segment_glued (sep : string) st seg rest emitted' :
  sep = " " \/ sep = PARAGRAPH_SEP ->
  Forall2 glued emitted'
    (pack_from limit (current_chunk (add_segment limit (join sep) st seg))
       (current_length (add_segment limit (join sep) st seg)) rest) ->
  exists emitted,
    (chunks (add_segment limit (join sep) st seg) ++ emitted'
     = chunks st ++ emitted)%list
    /\ Forall2 glued emitted
         (pack_from limit (current_chunk st) (current_length st) (seg :: rest)).
Proof.
  intros Hsep. cbn [pack_from]. unfold add_segment.
  destruct (limit <? _); cbn [chunks current_chunk current_length]; intros H.
  - exists (map (join sep) (close (current_chunk st)) ++ emitted')%list.
    split; [now rewrite flush_close, app_assoc|].
    apply Forall2_app; [now apply glued_close | exact H].
  - now exists emitted'.
Qed.

Lemma fold_add_segment_glued (sep : string) (segs : list string) :
  sep = " " \/ sep = PARAGRAPH_SEP ->
  forall st rest emitted',
    Forall2 glued emitted'
      (pack_from limit
         (current_chunk (fold_left (add_segment limit (join sep)) segs st))
         (current_length (fold_left (add_segment limit (join sep)) segs st)) rest) ->
    exists emitted,
      (chunks (fold_left (add_segment limit (join sep)) segs st) ++ emitted'
       = chunks st ++ emitted)%list
      /\ Forall2 glued emitted
           (pack_from limit (current_chunk st) (current_length st) (segs ++ rest)).
Proof.
  intros Hsep.
  induction segs as [|seg segs IH]; intros st rest emitted' H; cbn [fold_left app] in *.
  - now exists emitted'.
  - destruct (IH _ _ _ H) as [emitted1 [E1 H1]].
    destruct (add_segment_glued sep st seg _ _ Hsep H1) as [emitted [E H2]].
    exists emitted. split; [congruence | exact H2].
Qed.

Lemma add_paragraph_glued st paragraph rest emitted' :
  Forall2 glued emitted'
    (pack_from limit (current_chunk (add_paragraph limit st paragraph))
       (current_length (add_paragraph limit st paragraph)) rest) ->
  exists emitted,
    (chunks (add_paragraph limit st paragraph) ++ emitted' = chunks st ++ emitted)%list
    /\ Forall2 glued emitted
         (pack_from limit (current_chunk st) (current_length st)
            (paragraph_segments limit paragraph ++ rest)).
Proof.
  unfold add_paragraph, paragraph_segments.
  destruct (limit <? String.length paragraph).
  - rewrite fold_add_sentence. apply fold_add_segment_glued. now left.
  - apply add_segment_glued. now right.
Qed.

(** The chunks of [Core.translate_text] are the groups, each joined by a space
    or by the paragraph separator. *)
Lemma translate_chunks_glued (text : string) :
  Forall2 glued (translate_chunks limit text)
    (pack limit (translate_segments limit text)).
Proof.
  unfold translate_chunks, translate_segments, pack.
  assert (H : forall paragraphs st,
    exists emitted,
      flush (join PARAGRAPH_SEP) (fold_left (add_paragraph limit) paragraphs st)
      = (chunks st ++ emitted)%list
      /\ Forall2 glued emitted
           (pack_from limit (current_chunk st) (current_length st)
              (flat_map (paragraph_segments limit) paragraphs))).
  { induction paragraphs as [|p ps IH]; intros st; cbn [fold_left flat_map].
    - exists (map (join PARAGRAPH_SEP) (close (current_chunk st))).
      split; [apply flush_close | apply glued_close; now right].
    - destruct (IH (add_paragraph limit st p)) as [emitted' [E' H']].
      destruct (add_paragraph_glued st p _ _ H') as [emitted [E H]].
      exists emitted. split; [congruence | exact H]. }
  destruct (H (split PARAGRAPH_SEP text) init) as [emitted [E Hg]].
  rewrite E. exact Hg.
Qed.

(** The chunks of [Core.text_to_speech] are the groups, each joined by [". "]
    and closed by a full stop. *)
Lemma tts_chunks_groups (text : string) :
  tts_chunks limit text = map tts_glue (pack limit (tts_segments text)).
Proof.
  unfold tts_chunks, tts_segments, pack.
  now rewrite fold_add_sentence, flush_fold_add_segment.
Qed.

(** Every segment is in one group, and the groups keep the order. *)
Lemma concat_pack_from (segs : list string) :
  forall current counted,
    concat (pack_from limit current counted segs) = (current ++ segs)%list.
Proof.
  induction segs as [|seg segs IH]; intros current counted; cbn [pack_from].
  - rewrite app_nil_r. now destruct current; cbn; rewrite ?app_nil_r.
  - destruct (limit <? _).
    + rewrite concat_app, IH. now destruct current; cbn; rewrite ?app_nil_r.
    + now rewrite IH, <- app_assoc.
Qed.

Lemma weight_snoc (group : list string) (seg : string) :
  group <> [] -> weight (group ++ [seg]) = weight group + 2 + String.length seg.
Proof.
  intros H. induction group as [|x group IH]; [congruence|].
  destruct group as [|y group]; [reflexivity|].
  change (weight ((x :: y :: group) ++ [seg]))
    with (String.length x + 2 + weight ((y :: group) ++ [seg])).
  rewrite IH by discriminate.
  change (weight (x :: y :: group)) with (String.length x + 2 + weight (y :: group)).
  lia.
Qed.

(** A group joined by a separator of 2 characters has its weight for
    length. *)
Lemma length_join_weight (sep : string) (group : list string) :
  String.length sep = 2 -> String.length (join sep group) = weight group.
Proof.
  intros Hsep. induction group as [|x group IH]; [reflexivity|].
  destruct group as [|y group]; [reflexivity|].
  rewrite join_cons by discriminate.
  rewrite !length_append, IH, Hsep.
  change (weight (x :: y :: group)) with (String.length x + 2 + weight (y :: group)).
  lia.
Qed.

(** The groups start with the chunk in progress. *)
Lemma pack_from_head (segs : list string) :
  forall current counted,
    current <> [] ->
    exists first others,
      pack_from limit current counted segs = first :: others
      /\ head first = head current.
Proof.
  induction segs as [|seg segs IH]; intros current counted Hne; cbn [pack_from].
  - destruct current; [congruence|]. now exists (s :: current), [].
  - destruct (limit <? _).
    + destruct current; [congruence|]. cbn [close app]. eauto.
    + destruct (IH (current ++ [seg])%list (counted + String.length seg + 2))
        as [first [others [E Hhead]]].
      { intros H. now apply app_eq_nil in H as [H _]. }
      exists first, others. split; [exact E|].
      rewrite Hhead. now destruct current.
Qed.

Lemma tight_weaken (slack : nat) (groups : list (list string)) :
  tight limit 0 groups -> tight limit slack groups.
Proof.
  destruct groups as [|earlier [|later rest]]; cbn [tight]; [easy..|].
  intros [H Hrest]. split; [|exact Hrest].
  destruct later; [exact I | lia].
Qed.

(** While the count kept for the chunk in progress is at most its weight
    plus [slack], the groups are tight up to [slack] at the first pair. *)
Lemma pack_from_tight (segs : list string) :
  forall current counted slack,
    current <> [] ->
    counted <= weight current + slack ->
    tight limit slack (pack_from limit current counted segs).
Proof.
  induction segs as [|seg segs IH]; intros current counted slack Hne Hcount;
    cbn [pack_from].
  - destruct current; [congruence|]. exact I.
  - destruct (limit <? counted + String.length seg + 2) eqn:Htest.
    + apply Nat.ltb_lt in Htest.
      destruct current as [|c current]; [congruence|]. cbn [close app].
      destruct (pack_from_head segs [seg] (String.length seg))
        as [first [others [E Hhead]]]; [discriminate|].
      pose proof (IH [seg] (String.length seg) 0) as Hrest.
      rewrite E in Hrest |- *.
      change (tight limit slack ((c :: current) :: first :: others))
        with (match first with
              | [] => True
              | s :: _ => limit < weight (c :: current) + 2 + String.length s + slack
              end /\ tight limit 0 (first :: others)).
      split; [|apply Hrest; [discriminate | cbn; lia]].
      destruct first as [|s first]; [exact I|].
      cbn [head] in Hhead. injection Hhead as ->. lia.
    + apply Nat.ltb_ge in Htest. apply IH.
      * intros H. now apply app_eq_nil in H as [H _].
      * rewrite weight_snoc by assumption. lia.
Qed.

(** The groups are tight, up to 2 characters at the first pair. *)
Lemma pack_tight (segs : list string) : tight limit 2 (pack limit segs).
Proof.
  unfold pack. destruct segs as [|seg segs]; [exact I|]. cbn [pack_from].
  destruct (limit <? 0 + String.length seg + 2).
  - cbn [close app]. apply tight_weaken, pack_from_tight; [discriminate | cbn; lia].
  - cbn [app]. apply pack_from_tight; [discriminate | cbn; lia].
Qed.

End PackingFacts.

(* ===================================================================== *)
(** * The properties claimed by the specification *)
(* ===================================================================== *)

Section Claims.

Import Core Chunker Auth Api.

(** C9.  Translation to the source language is the identity: for every
    text, [Core.translate_text text 'en'] returns the text unchanged and sends
    nothing to the translator (the world after the call is the world
    before it), on the short path and on the chunked path alike. *)
Theorem translate_text_to_source_language (env : services) (text : string) (w : world) :
  Core.translate_text env text "en" w = (Returned text, w).
Proof. apply translate_text_source. Qed.



(** A paragraph longer than the limit is cut at its sentence ends, and the
    [". "] between the sentences does not come back. *)
Lemma translate_chunks_drop_sentence_separator :
  MAX_CHUNK_SIZE < String.length Samples.sentence_then_word
  /\ translate_chunks MAX_CHUNK_SIZE Samples.sentence_then_word = ["a"; repeat "b" 4500]
  /\ join PARAGRAPH_SEP (translate_chunks MAX_CHUNK_SIZE Samples.sentence_then_word)
     <> Samples.sentence_then_word
  /\ (Core.translate_text Samples.identity_services Samples.sentence_then_word "es"
        Samples.empty_world).1
     <> Returned Samples.sentence_then_word.
Proof.
  assert (Hchunks : translate_chunks MAX_CHUNK_SIZE Samples.sentence_then_word
                    = ["a"; repeat "b" 4500]) by (vm_compute; reflexivity).
  assert (Hlen : MAX_CHUNK_SIZE < String.length Samples.sentence_then_word)
    by (apply Nat.ltb_lt; vm_compute; reflexivity).
  assert (Hne : join PARAGRAPH_SEP ["a"; repeat "b" 4500] <> Samples.sentence_then_word).
  { intros H. apply String.eqb_eq in H. vm_compute in H. discriminate H. }
  split; [exact Hlen|]. split; [exact Hchunks|].
  split; [now rewrite Hchunks|].
  rewrite (translate_text_long Samples.identity_services _ "es" (fun c => c))
    by (reflexivity || assumption || (intros; reflexivity)).
  cbn [fst]. rewrite map_id, Hchunks. intros H. apply Hne. now injection H.
Qed.

(** C2 (amended).  For every text longer than 4500 characters none of
    whose paragraphs is longer than 4500 characters, the splitting done by
    [Core.translate_text] loses nothing: the chunks joined in order by the
    paragraph separator are the text, and with a translator that answers
    each chunk with the chunk itself [Core.translate_text] returns the text
    character for character. *)
Theorem translate_chunks_join_short_paragraphs (text : string) :
  MAX_CHUNK_SIZE < String.length text ->
  Forall (fun p => String.length p <= MAX_CHUNK_SIZE) (split PARAGRAPH_SEP text) ->
  join PARAGRAPH_SEP (translate_chunks MAX_CHUNK_SIZE text) = text
  /\ forall lang w,
       (Core.translate_text Samples.identity_services text lang w).1 = Returned text.
Proof.
  intros Hlen Hpar.
  pose proof (join_translate_chunks MAX_CHUNK_SIZE text Hpar) as Hjoin.
  split; [exact Hjoin|]. intros lang w.
  destruct (String.eqb lang source_language) eqn:Hlang.
  - apply String.eqb_eq in Hlang. subst lang. now rewrite translate_text_source.
  - rewrite (translate_text_long Samples.identity_services _ lang (fun c => c))
      by (reflexivity || assumption || (intros; reflexivity)).
    cbn [fst]. now rewrite map_id, Hjoin.
Qed.

Lemma Forall_length_leb (limit : nat) (l : list string) :
  forallb (fun p => String.length p <=? limit) l = true ->
  Forall (fun p => String.length p <= limit) l.
Proof.
  intros H. apply List.Forall_forall. intros p Hp.
  apply Nat.leb_le. exact (proj1 (forallb_forall _ l) H p Hp).
Qed.

Lemma translate_chunks_join_short_paragraphs_witness :
  join PARAGRAPH_SEP (translate_chunks MAX_CHUNK_SIZE Samples.two_paragraphs)
  = Samples.two_paragraphs
  /\ forall lang w,
       (Core.translate_text Samples.identity_services Samples.two_paragraphs lang w).1
       = Returned Samples.two_paragraphs.
Proof.
  apply (translate_chunks_join_short_paragraphs Samples.two_paragraphs).
  - apply Nat.ltb_lt. vm_compute. reflexivity.
  - apply Forall_length_leb. vm_compute. reflexivity.
Defined.

(** C1 (the code departs from it).  A text made of one word of 4501
    characters has no sentence end to be cut at: [Core.translate_text]
    sends it to the translator as one chunk of 4501 characters, above
    [MAX_CHUNK_SIZE].  Likewise [Core.text_to_speech] sends one word of
    5000 characters, with the final full stop it adds, as one chunk of
    5001 characters, above [MAX_TTS_SIZE]. *)
Theorem oversized_sentence_sent_in_one_piece :
  calls (Core.translate_text Samples.identity_services Samples.long_word "es"
           Samples.empty_world).2
  = [Translate "es" Samples.long_word]
  /\ MAX_CHUNK_SIZE < String.length Samples.long_word
  /\ calls (Core.text_to_speech Samples.identity_services Samples.longer_word "es"
              "output_audio" Samples.empty_world).2
     = [Speak "es" (Samples.longer_word +:+ ".")]
  /\ MAX_TTS_SIZE < String.length (Samples.longer_word +:+ ".").
Proof.
  split; [vm_compute; reflexivity|].
  split; [apply Nat.ltb_lt; vm_compute; reflexivity|].
  split; [vm_compute; reflexivity|].
  apply Nat.ltb_lt; vm_compute; reflexivity.
Qed.

(** C5 (the code departs from it).  When the translator fails with the
    message [timeout], [Core.translate_text] returns the string
    [Translation error: timeout]; the substring [Error] the endpoint looks
    for does not occur in it, and POST /translate answers with a
    successful response whose translated text is that string. *)
Theorem translation_failure_answered_as_success :
  (Core.translate_text (Samples.failing_services "timeout") "hello" "es"
     Samples.funded_world).1
  = Returned "Translation error: timeout"
  /\ contains "Error" "Translation error: timeout" = false
  /\ (Api.translate_text (Samples.failing_services "timeout") Samples.u1
        (Models.mkTranslateRequest "hello" Models.SPANISH) Samples.funded_world).1
     = Returned (Models.mkTranslateResponse true "hello" "en"
                   "Translation error: timeout" "es").
Proof. repeat split; vm_compute; reflexivity. Qed.



(** C10.  [Core.translate_text] and [Core.text_to_speech] never raise: whatever
    their body raises comes back as a string that begins with
    [Translation error: ] or [TTS error: ].  For a user whose credit was
    taken, the endpoints treat the outcome as a failure, answered 500,
    exactly when the substring [Error] occurs in the returned string.  So
    a text that was translated without any failure but holds [Error] is
    answered 500: with the translator that returns its input, the text
    [Error 404] is such a case. *)
Theorem failures_returned_as_strings (env : services) (current_user : user)
    (data : Models.TranslateRequest) (speech lang output_dir : string) (w : world) :
  covered w (id current_user) 1 = true ->
  let text := Models.text data in
  let target := Models.value (Models.target_language data) in
  let w1 := charged w (id current_user) 1 in
  (Core.translate_text env text lang w).1
  = match (translate_text_body env text lang w).1 with
    | Returned translated => Returned translated
    | Raised e => Returned ("Translation error: " +:+ e)
    end
  /\ (Core.text_to_speech env speech lang output_dir w).1
     = match (text_to_speech_body env speech lang output_dir w).1 with
       | Returned path => Returned path
       | Raised e => Returned ("TTS error: " +:+ e)
       end
  /\ (exists translated,
        (Core.translate_text env text target w1).1 = Returned translated
        /\ (Api.translate_text env current_user data w).1
           = if contains "Error" translated
             then Raised (mkHttpError 500 translated)
             else Returned (Models.mkTranslateResponse true text
                              Config.SOURCE_LANGUAGE translated target))
  /\ (exists translated w2,
        Core.translate_text env text target w1 = (Returned translated, w2)
        /\ if contains "Error" translated
           then (Api.text_to_speech env current_user data w).1
                = Raised (mkHttpError 500 translated)
           else exists audio_file,
                  (Core.text_to_speech env translated target OUTPUT_DIR w2).1
                  = Returned audio_file
                  /\ (Api.text_to_speech env current_user data w).1
                     = if contains "Error" audio_file
                       then Raised (mkHttpError 500 audio_file)
                       else Returned (Models.mkTTSResponse true text
                                        Config.SOURCE_LANGUAGE translated target
                                        (basename audio_file)
                                        ("/audio/" +:+ basename audio_file)
                                        (String.length text)))
  /\ ((translate_text_body Samples.identity_services "Error 404" "es"
         Samples.funded_world).1
      = Returned "Error 404"
      /\ (Api.translate_text Samples.identity_services Samples.u1
            (Models.mkTranslateRequest "Error 404" Models.SPANISH)
            Samples.funded_world).1
         = Raised (mkHttpError 500 "Error 404")).
Proof.
  intros Hcov text target w1. subst text target w1.
  split; [|split; [|split; [|split]]].
  - unfold Core.translate_text, try_except.
    now destruct (translate_text_body env _ lang w) as [[t|e] w'].
  - unfold Core.text_to_speech, try_except.
    now destruct (text_to_speech_body env speech lang output_dir w) as [[t|e] w'].
  - rewrite translate_endpoint_eq, Hcov.
    destruct (try_except_returns (E' := exn)
                (translate_text_body env (Models.text data)
                   (Models.value (Models.target_language data)))
                (fun e => "Translation error: " +:+ e)
                (charged w (id current_user) 1)) as [translated Ht].
    fold (Core.translate_text env (Models.text data)
            (Models.value (Models.target_language data))) in Ht.
    exists translated. split; [exact Ht|].
    destruct (Core.translate_text env _ _ _) as [[t|e] w2]; cbn [fst] in *; [|discriminate].
    injection Ht as ->. now destruct (contains "Error" translated).
  - rewrite tts_endpoint_eq, Hcov.
    destruct (try_except_returns (E' := exn)
                (translate_text_body env (Models.text data)
                   (Models.value (Models.target_language data)))
                (fun e => "Translation error: " +:+ e)
                (charged w (id current_user) 1)) as [translated Ht].
    fold (Core.translate_text env (Models.text data)
            (Models.value (Models.target_language data))) in Ht.
    destruct (Core.translate_text env _ _ _) as [[t|e] w2]; cbn [fst] in *; [|discriminate].
    injection Ht as ->. exists translated, w2. split; [reflexivity|].
    destruct (contains "Error" translated); [reflexivity|].
    destruct (try_except_returns (E' := exn)
                (text_to_speech_body env translated
                   (Models.value (Models.target_language data)) OUTPUT_DIR)
                (fun e => "TTS error: " +:+ e) w2) as [audio_file Ha].
    fold (Core.text_to_speech env translated
            (Models.value (Models.target_language data)) OUTPUT_DIR) in Ha.
    exists audio_file. split; [exact Ha|].
    destruct (Core.text_to_speech env _ _ _ _) as [[a|e] w3]; cbn [fst] in *; [|discriminate].
    injection Ha as ->. now destruct (contains "Error" audio_file).
  - split; vm_compute; reflexivity.
Qed.

Lemma failures_returned_as_strings_witness :
  exists translated,
    (Core.translate_text Samples.identity_services "Error 404" "es"
       (charged Samples.funded_world "u1" 1)).1 = Returned translated
    /\ (Api.translate_text Samples.identity_services Samples.u1
          (Models.mkTranslateRequest "Error 404" Models.SPANISH)
          Samples.funded_world).1
       = if contains "Error" translated
         then Raised (mkHttpError 500 translated)
         else Returned (Models.mkTranslateResponse true "Error 404"
                          Config.SOURCE_LANGUAGE translated "es").
Proof.
  refine (proj1 (proj2 (proj2
    (failures_returned_as_strings Samples.identity_services Samples.u1
       (Models.mkTranslateRequest "Error 404" Models.SPANISH)
       "hello" "es" "output_audio" Samples.funded_world _)))).
  vm_compute. reflexivity.
Defined.

(** C7.  The accepted target languages are the nine codes en, es, fr, de,
    it, pt, ja, zh-CN, ko: the request model, the configuration and the
    core engine enumerate these nine and no other, and each of the nine is
    accepted by the request model and by the configuration.  A request to
    /translate, /tts or /process-file whose target language is none of
    them is rejected (422 by request validation, 400 by /process-file)
    with the world left as it was: no credit taken, nothing sent to the
    translator or to the synthesiser. *)
Theorem target_language_outside_the_nine_rejected (env : services)
    (lib : FileProcessor.extractors) (current_user : user) (file : upload)
    (raw_text lang : string) (w : world) :
  ~ In lang Models.accepted_codes ->
  (map Models.value Models.members = Models.accepted_codes
   /\ FileProcessor.keys Config.TARGET_LANGUAGES = Models.accepted_codes
   /\ FileProcessor.keys target_languages = Models.accepted_codes
   /\ length Models.accepted_codes = 9
   /\ NoDup Models.accepted_codes)
  /\ (forall code, In code Models.accepted_codes ->
        (exists m, Models.of_value code = Some m /\ Models.value m = code)
        /\ FileProcessor.has_key code Config.TARGET_LANGUAGES = true)
  /\ post (Api.translate_text env) current_user raw_text lang w
     = (Raised (mkHttpError 422 "Unprocessable Entity"), w)
  /\ post (Api.text_to_speech env) current_user raw_text lang w
     = (Raised (mkHttpError 422 "Unprocessable Entity"), w)
  /\ exists detail,
       Api.process_file env lib current_user file lang w
       = (Raised (mkHttpError 400 detail), w).
Proof.
  intros Hlang.
  assert (Hval : Models.validate raw_text lang = None)
    by now apply validate_None, of_value_None.
  split; [|split; [|split; [|split]]].
  - repeat split; try reflexivity.
    apply (bool_decide_unpack _). vm_compute. exact I.
  - intros code Hcode. split.
    + cbn [Models.accepted_codes In] in Hcode.
      repeat (destruct Hcode as [<-|Hcode]; [eexists; split; reflexivity|]).
      destruct Hcode.
    + now apply has_key_In.
  - unfold post. now rewrite Hval.
  - unfold post. now rewrite Hval.
  - eexists. apply process_file_endpoint_bad_language.
    now apply has_key_not_In.
Qed.

Lemma target_language_outside_the_nine_rejected_witness :
  post (Api.translate_text Samples.identity_services) Samples.u1 "hello" "nl"
    Samples.funded_world
  = (Raised (mkHttpError 422 "Unprocessable Entity"), Samples.funded_world).
Proof.
  refine (proj1 (proj2 (proj2
    (target_language_outside_the_nine_rejected Samples.identity_services
       (Samples.constant_extractors "sheet") Samples.u1 (mkUpload "a.txt" [])
       "hello" "nl" Samples.funded_world _)))).
  cbn [Models.accepted_codes FileProcessor.listed_formats In]. intros H.
  repeat (destruct H as [H|H]; [discriminate H|]). exact H.
Defined.

(** A file named [report.xls] is not refused as an unsupported format:
    it is handed to the spreadsheet parser. *)
Lemma xls_is_dispatched :
  ~ In "xls" FileProcessor.listed_formats
  /\ FileProcessor.get_file_extension "report.xls" = "xls"
  /\ FileProcessor.process_file (Samples.constant_extractors "sheet") [] "report.xls"
     = FileProcessor.Extracted "sheet" "report.xls" "xls" 0 5.
Proof.
  split; [|split; vm_compute; reflexivity].
  cbn [Models.accepted_codes FileProcessor.listed_formats In]. intros H.
  repeat (destruct H as [H|H]; [discriminate H|]). exact H.
Qed.

(** C8 (amended).  [process_file] dispatches on the file extension, the
    lowercased text after the last dot of the file name, to the extractor
    of the format, and the supported extensions are exactly txt, pdf,
    docx, json, csv, xlsx and xls (xlsx and xls share the spreadsheet
    extractor).  A file with any other extension yields a failure with the
    unsupported-format error, a file of more than [MAX_FILE_SIZE] bytes
    yields a failure, and so does a file whose extractor raises: no
    failure leaves [process_file] as an exception. *)
Theorem process_file_dispatches_on_extension (lib : FileProcessor.extractors)
    (file_content : list Byte.byte) (stem suffix : string) :
  contains "." suffix = false ->
  let filename := stem +:+ "." +:+ suffix in
  let ext := lower suffix in
  let supported := (FileProcessor.listed_formats ++ ["xls"])%list in
  FileProcessor.get_file_extension filename = ext
  /\ FileProcessor.keys FileProcessor.SUPPORTED_FORMATS = supported
  /\ (FileProcessor.dispatch lib "txt" = Some (FileProcessor._process_txt lib)
      /\ FileProcessor.dispatch lib "pdf" = Some (FileProcessor._process_pdf lib)
      /\ FileProcessor.dispatch lib "docx" = Some (FileProcessor._process_docx lib)
      /\ FileProcessor.dispatch lib "json" = Some (FileProcessor._process_json lib)
      /\ FileProcessor.dispatch lib "csv" = Some (FileProcessor._process_csv lib)
      /\ FileProcessor.dispatch lib "xlsx" = Some (FileProcessor._process_xlsx lib)
      /\ FileProcessor.dispatch lib "xls" = Some (FileProcessor._process_xlsx lib))
  /\ (~ In ext supported ->
      FileProcessor.process_file lib file_content filename
      = FileProcessor.Failed (FileProcessor.UNSUPPORTED +:+ ext)
          (Some (FileProcessor.keys FileProcessor.SUPPORTED_FORMATS)) None)
  /\ (In ext supported ->
      (FileProcessor.MAX_FILE_SIZE < N.of_nat (length file_content))%N ->
      FileProcessor.process_file lib file_content filename
      = FileProcessor.Failed FileProcessor.TOO_LARGE None None)
  /\ (In ext supported ->
      (N.of_nat (length file_content) <= FileProcessor.MAX_FILE_SIZE)%N ->
      exists extract,
        FileProcessor.dispatch lib ext = Some extract
        /\ FileProcessor.process_file lib file_content filename
           = match extract file_content with
             | Returned text =>
                 FileProcessor.Extracted text filename ext
                   (length file_content) (String.length text)
             | Raised e =>
                 FileProcessor.Failed (FileProcessor.PROCESSING_ERROR +:+ e)
                   None (Some filename)
             end).
Proof.
  intros Hsuffix filename ext supported.
  pose proof (get_file_extension_suffix stem suffix Hsuffix) as Hext.
  fold filename ext in Hext.
  split; [exact Hext|]. split; [reflexivity|].
  split; [repeat split|].
  split; [|split].
  - intros Hout. unfold FileProcessor.process_file, FileProcessor.is_supported.
    rewrite Hext, has_key_not_In; [reflexivity|].
    now rewrite supported_keys.
  - intros Hin Hbig. unfold FileProcessor.process_file, FileProcessor.is_supported.
    rewrite Hext, (proj2 (has_key_In ext _)) by now rewrite supported_keys.
    cbn [negb]. now rewrite (proj2 (N.ltb_lt _ _) Hbig).
  - intros Hin Hsmall.
    destruct (dispatch_supported lib ext) as [extract Hd];
      [now rewrite supported_keys|].
    exists extract. split; [exact Hd|].
    unfold FileProcessor.process_file, FileProcessor.is_supported.
    rewrite Hext, (proj2 (has_key_In ext _)) by now rewrite supported_keys.
    cbn [negb]. rewrite (proj2 (N.ltb_ge _ _) Hsmall), Hd.
    reflexivity.
Qed.

Lemma process_file_dispatches_on_extension_witness :
  FileProcessor.get_file_extension ("Report.v2" +:+ "." +:+ "XLSX") = lower "XLSX".
Proof.
  refine (proj1 (process_file_dispatches_on_extension
                   (Samples.constant_extractors "sheet") [] "Report.v2" "XLSX" _)).
  vm_compute. reflexivity.
Defined.

(** The first chunk of a text of three paragraphs of 2000, 2497 and 1
    characters is the first paragraph alone, although the first two
    paragraphs joined make 4499 characters. *)
Lemma first_chunk_could_take_more :
  translate_chunks MAX_CHUNK_SIZE Samples.three_paragraphs
  = [repeat "a" 2000; repeat "b" 2497 +:+ PARAGRAPH_SEP +:+ "c"]
  /\ String.length (repeat "a" 2000 +:+ PARAGRAPH_SEP +:+ repeat "b" 2497)
     <= MAX_CHUNK_SIZE
  /\ ~ tight MAX_CHUNK_SIZE 0
         (pack MAX_CHUNK_SIZE
            (translate_segments MAX_CHUNK_SIZE Samples.three_paragraphs)).
Proof.
  split; [vm_compute; reflexivity|].
  split; [apply Nat.leb_le; vm_compute; reflexivity|].
  assert (E : pack MAX_CHUNK_SIZE
                (translate_segments MAX_CHUNK_SIZE Samples.three_paragraphs)
              = [[repeat "a" 2000]; [repeat "b" 2497; "c"]])
    by (vm_compute; reflexivity).
  rewrite E. cbn [tight]. intros [H _].
  apply Nat.ltb_lt in H. vm_compute in H. discriminate H.
Qed.

(** C4 (amended).  The chunker is a single-pass greedy packer.  Scanning
    the segments once in order, it appends a segment to the current chunk
    exactly when the accumulated length plus the length of the segment
    plus 2 does not exceed the bound, and otherwise emits the current
    chunk, if there is one, and starts a new chunk with that segment.  The
    chunks of both functions are the groups of segments so formed, joined;
    every segment is in one group and the order is kept.  For every pair
    of consecutive groups, the length of the earlier group joined by a
    separator of 2 characters (the length of the chunk itself when it is
    joined by the paragraph separator, one less than the length of a
    chunk of [text_to_speech]), plus 2, plus the length of the first
    segment of the later group exceeds the bound; for the first pair this
    holds once 2 more characters are added, the accumulated length having
    counted an allowance for the first segment of the text as well. *)
Theorem chunker_is_a_greedy_packer (limit : nat) (text : string)
    (segs group : list string) (glue : list string -> string) (st : state)
    (seg : string) :
  add_segment limit glue st seg
  = (if limit <? current_length st + String.length seg + 2
     then mkState (flush glue st) [seg] (String.length seg)
     else mkState (chunks st) (current_chunk st ++ [seg])
            (current_length st + String.length seg + 2))
  /\ Forall2 glued (translate_chunks limit text)
       (pack limit (translate_segments limit text))
  /\ tts_chunks limit text = map tts_glue (pack limit (tts_segments text))
  /\ concat (pack limit segs) = segs
  /\ String.length (join PARAGRAPH_SEP group) = weight group
  /\ String.length (tts_glue group) = weight group + 1
  /\ tight limit 2 (pack limit segs).
Proof.
  split; [reflexivity|].
  split; [apply translate_chunks_glued|].
  split; [apply tts_chunks_groups|].
  split; [apply concat_pack_from|].
  split; [now apply length_join_weight|].
  split; [|apply pack_tight].
  unfold tts_glue. rewrite length_append, length_join_weight by reflexivity.
  reflexivity.
Qed.

End Claims.

(* ===================================================================== *)
(** * Bounds on the chunks *)
(* ===================================================================== *)

Section ChunkBounds.

Import Chunker.

Variable limit : nat.

Lemma weight_app_single (current : list string) (seg : string) :
  weight (current ++ [seg]) <= weight current + String.length seg + 2.
Proof.
  destruct current as [|c current]; [cbn; lia|].
  rewrite weight_snoc by discriminate. lia.
Qed.

(** While the count covers the chunk in progress and stays within the
    limit, and no segment is longer than the limit, no group weighs more
    than the limit. *)
Lemma pack_from_weight_bounded (segs : list string) :
  Forall (fun seg => String.length seg <= limit) segs ->
  forall current counted,
    weight current <= counted -> counted <= limit ->
    Forall (fun group => weight group <= limit)
           (pack_from limit current counted segs).
Proof.
  induction 1 as [|seg segs Hseg _ IH]; intros current counted Hw Hc;
    cbn [pack_from].
  - destruct current; cbn [close]; repeat constructor. lia.
  - destruct (limit <? counted + String.length seg + 2) eqn:Htest.
    + apply Forall_app. split.
      * destruct current; cbn [close]; repeat constructor. lia.
      * apply IH; [cbn; lia | exact Hseg].
    + apply Nat.ltb_ge in Htest. apply IH; [|exact Htest].
      pose proof (weight_app_single current seg). lia.
Qed.

Lemma length_join_le_weight (sep : string) (group : list string) :
  String.length sep <= 2 -> String.length (join sep group) <= weight group.
Proof.
  intros Hsep. induction group as [|x group IH]; [reflexivity|].
  destruct group as [|y group]; [reflexivity|].
  rewrite join_cons by discriminate. rewrite !length_append.
  change (weight (x :: y :: group)) with (String.length x + 2 + weight (y :: group)).
  lia.
Qed.

Lemma glued_length (chunk : string) (group : list string) :
  glued chunk group -> String.length chunk <= weight group.
Proof.
  intros [-> | ->]; apply length_join_le_weight; cbn; lia.
Qed.

Lemma sentences_bounded (pieces : list string) :
  (forall piece, In piece pieces -> String.length (strip piece) <= limit) ->
  Forall (fun seg => String.length seg <= limit) (sentences pieces).
Proof.
  intros H. unfold sentences. apply List.Forall_forall. intros seg Hseg.
  apply filter_In in Hseg as [Hseg _]. apply in_map_iff in Hseg as [piece [<- Hp]].
  now apply H.
Qed.

Lemma translate_segments_bounded (text : string) :
  (forall paragraph sentence,
     In paragraph (split PARAGRAPH_SEP text) ->
     In sentence (split ". " paragraph) ->
     String.length (strip sentence) <= limit) ->
  Forall (fun seg => String.length seg <= limit) (translate_segments limit text).
Proof.
  intros H. unfold translate_segments. apply List.Forall_forall. intros seg Hseg.
  apply in_flat_map in Hseg as [paragraph [Hp Hseg]].
  unfold paragraph_segments in Hseg.
  destruct (limit <? String.length paragraph) eqn:Hlong.
  - pose proof (sentences_bounded (split ". " paragraph)
                  (fun sentence Hs => H paragraph sentence Hp Hs)) as Hs.
    exact (proj1 (List.Forall_forall _ _) Hs seg Hseg).
  - apply Nat.ltb_ge in Hlong. destruct Hseg as [<-|[]]. exact Hlong.
Qed.

(** Every group holds a segment. *)
Lemma pack_from_groups_not_nil (segs : list string) :
  forall current counted,
    Forall (fun group => group <> []) (pack_from limit current counted segs).
Proof.
  induction segs as [|seg segs IH]; intros current counted; cbn [pack_from].
  - destruct current; cbn [close]; repeat constructor. discriminate.
  - destruct (limit <? _); [|apply IH].
    apply Forall_app. split; [|apply IH].
    destruct current; cbn [close]; repeat constructor. discriminate.
Qed.

Lemma length_concat_ge {A} (groups : list (list A)) :
  Forall (fun group => group <> []) groups ->
  length groups <= length (concat groups).
Proof.
  induction 1 as [|g groups Hg _ IH]; cbn [concat length]; [lia|].
  rewrite length_app. destruct g; [congruence|]. cbn [length]. lia.
Qed.

End ChunkBounds.

(* ===================================================================== *)
(** * Further properties of the chunkers *)
(* ===================================================================== *)

Section ChunkerProperties.

Import Core Chunker.

(** X1.  When no sentence of the text, once stripped, is longer than the
    limit, no chunk of [translate_text] is longer than the limit. *)
Theorem translate_chunks_within_limit (limit : nat) (text : string) :
  (forall paragraph sentence,
     In paragraph (split PARAGRAPH_SEP text) ->
     In sentence (split ". " paragraph) ->
     String.length (strip sentence) <= limit) ->
  Forall (fun chunk => String.length chunk <= limit) (translate_chunks limit text).
Proof.
  intros H.
  pose proof (translate_chunks_glued limit text) as Hglued.
  pose proof (pack_from_weight_bounded limit _
                (translate_segments_bounded limit text H) [] 0
                (Nat.le_refl 0) (Nat.le_0_l limit)) as Hbound.
  fold (pack limit (translate_segments limit text)) in Hbound.
  revert Hbound. induction Hglued as [|chunk group chunks groups Hg _ IH];
    intros Hbound; [constructor|].
  apply Forall_cons in Hbound as [Hw Hrest].
  constructor; [|now apply IH].
  apply glued_length in Hg. lia.
Qed.

Lemma translate_chunks_within_limit_witness :
  Forall (fun chunk => String.length chunk <= 4500)
         (translate_chunks 4500 Samples.three_sentences).
Proof.
  apply (translate_chunks_within_limit 4500 Samples.three_sentences).
  intros paragraph sentence Hp Hs.
  assert (Hall : forallb (fun p => forallb (fun t => String.length (strip t) <=? 4500)
                                     (split ". " p))
                   (split PARAGRAPH_SEP Samples.three_sentences) = true)
    by (vm_compute; reflexivity).
  apply Nat.leb_le.
  exact (proj1 (forallb_forall _ _)
           (proj1 (forallb_forall _ _) Hall paragraph Hp) sentence Hs).
Defined.

(** X2.  When no sentence of the text, once stripped, is longer than the
    limit, a chunk of [text_to_speech] is at most one character longer
    than the limit: the full stop that closes it is not counted. *)
Theorem tts_chunks_within_limit_plus_one (limit : nat) (text : string) :
  (forall sentence, In sentence (tts_sentences text) ->
                    String.length (strip sentence) <= limit) ->
  Forall (fun chunk => String.length chunk <= limit + 1) (tts_chunks limit text).
Proof.
  intros H. rewrite tts_chunks_groups.
  pose proof (pack_from_weight_bounded limit _
                (sentences_bounded limit (tts_sentences text) H) [] 0
                (Nat.le_refl 0) (Nat.le_0_l limit)) as Hbound.
  fold (tts_segments text) in Hbound. fold (pack limit (tts_segments text)) in Hbound.
  apply Forall_map. eapply Forall_impl; [exact Hbound|].
  intros group Hw. cbn beta in Hw |- *.
  unfold tts_glue. rewrite length_append, length_join_weight by reflexivity.
  cbn [String.length]. lia.
Qed.

Lemma tts_chunks_within_limit_plus_one_witness :
  Forall (fun chunk => String.length chunk <= 4999 + 1)
         (tts_chunks 4999 Samples.three_sentences).
Proof.
  apply (tts_chunks_within_limit_plus_one 4999 Samples.three_sentences).
  intros sentence Hs.
  assert (Hall : forallb (fun t => String.length (strip t) <=? 4999)
                   (tts_sentences Samples.three_sentences) = true)
    by (vm_compute; reflexivity).
  apply Nat.leb_le. exact (proj1 (forallb_forall _ _) Hall sentence Hs).
Defined.

(** X3.  Every chunk holds at least one segment, so neither function
    makes more chunks, and so sends more requests, than the text has
    segments. *)
Theorem no_more_chunks_than_segments (limit : nat) (text : string) :
  length (translate_chunks limit text) <= length (translate_segments limit text)
  /\ length (tts_chunks limit text) <= length (tts_segments text).
Proof.
  split.
  - rewrite (Forall2_length _ _ _ (translate_chunks_glued limit text)).
    rewrite <- (concat_pack_from limit (translate_segments limit text) [] 0) at 2.
    apply length_concat_ge, pack_from_groups_not_nil.
  - rewrite tts_chunks_groups, length_map.
    rewrite <- (concat_pack_from limit (tts_segments text) [] 0) at 2.
    apply length_concat_ge, pack_from_groups_not_nil.
Qed.

End ChunkerProperties.

(* ===================================================================== *)
(** * Further properties of LocalizationAI *)
(* ===================================================================== *)

Section CoreProperties.

Import Core Chunker Frames.

Variable env : services.

Lemma sends_only_refl P w : sends_only P w w.
Proof. exists []. split; [now rewrite after_calls_nil | constructor]. Qed.

Lemma sends_only_trans P w1 w2 w3 :
  sends_only P w1 w2 -> sends_only P w2 w3 -> sends_only P w1 w3.
Proof.
  intros [n1 [-> H1]] [n2 [-> H2]]. exists (n1 ++ n2)%list.
  split; [apply after_calls_app | now apply Forall_app].
Qed.

Lemma sends_and_writes_only_refl P w : sends_and_writes_only P w w.
Proof.
  exists [], (files w). split; [|constructor].
  rewrite after_calls_nil. now destruct w.
Qed.

Lemma sends_and_writes_only_trans P w1 w2 w3 :
  sends_and_writes_only P w1 w2 -> sends_and_writes_only P w2 w3 ->
  sends_and_writes_only P w1 w3.
Proof.
  intros [n1 [f1 [-> H1]]] [n2 [f2 [-> H2]]]. exists (n1 ++ n2)%list, f2.
  split; [|now apply Forall_app].
  now rewrite with_files_after_calls, after_calls_app.
Qed.

Lemma translate_text_sends_only text lang :
  preserves (sends_only (is_translate_to lang)) (Core.translate_text env text lang).
Proof.
  pose proof (sends_only_refl (is_translate_to lang)) as Hr.
  pose proof (sends_only_trans (is_translate_to lang)) as Ht.
  assert (Hcall : forall chunk,
            preserves (sends_only (is_translate_to lang))
                      (translate_call env lang chunk)).
  { intros chunk w. rewrite translate_call_eq. cbn [snd].
    exists [Translate lang chunk]. split; [reflexivity|].
    repeat constructor. now exists chunk. }
  unfold Core.translate_text, translate_text_body, translate_each, new_translator.
  apply preserves_try_except; [assumption..| |intros; now apply preserves_ret].
  destruct (_ <=? _), (String.eqb _ _), (translator_init env lang);
    repeat first
      [ apply preserves_ret; assumption
      | apply preserves_raise; assumption
      | apply Hcall
      | apply preserves_for_each; [assumption..|intros]
      | apply preserves_bind; [assumption..| |intros] ].
Qed.

Lemma tts_save_sends_and_writes text lang path :
  preserves (sends_and_writes_only (is_speak_in lang)) (tts_save env text lang path).
Proof.
  intros w. unfold tts_save, bind, modify, lift.
  destruct (gtts_save env lang text) as [mp3|e]; cbn [snd].
  - exists [Speak lang text], (<[path := mp3]> (files w)).
    split; [reflexivity|]. repeat constructor. now exists text.
  - exists [Speak lang text], (files w).
    split; [now destruct w|]. repeat constructor. now exists text.
Qed.

Lemma text_to_speech_sends_and_writes text lang output_dir :
  preserves (sends_and_writes_only (is_speak_in lang))
            (Core.text_to_speech env text lang output_dir).
Proof.
  pose proof (sends_and_writes_only_refl (is_speak_in lang)) as Hr.
  pose proof (sends_and_writes_only_trans (is_speak_in lang)) as Ht.
  assert (Hfiles : forall f : gmap string audio -> gmap string audio,
            preserves (sends_and_writes_only (is_speak_in lang))
                      (@modify world exn (with_files f))).
  { intros f w. exists [], (f (files w)). split; [|constructor].
    cbn. unfold after_calls, with_files, with_calls. cbn. now rewrite app_nil_r. }
  unfold Core.text_to_speech, text_to_speech_body.
  apply preserves_try_except; [assumption..| |intros; now apply preserves_ret].
  apply preserves_bind; [assumption..|now apply preserves_get|]. intros w0.
  destruct (_ <=? _); [|destruct (negb _)];
    repeat first
      [ apply preserves_ret; assumption
      | apply tts_save_sends_and_writes
      | apply Hfiles
      | apply preserves_for_each; [assumption..|intros; unfold speak_chunk, from_mp3]
      | apply preserves_get; assumption
      | apply preserves_bind; [assumption..| |intros] ].
  destruct (files _ !! _);
    [apply preserves_ret | apply preserves_raise]; assumption.
Qed.

(** One round of the loop of [text_to_speech] adds no file. *)
Lemma speak_chunk_no_new_file lang output_dir timestamp combined ic :
  preserves no_new_file (speak_chunk env lang output_dir timestamp combined ic).
Proof.
  intros w. destruct ic as [i chunk]. unfold no_new_file.
  destruct (gtts_save env lang chunk) as [mp3|e] eqn:E.
  - destruct (speak_chunk_returned env lang output_dir timestamp combined i chunk
                mp3 w E) as [fs [Hsub ->]].
    exact Hsub.
  - now rewrite (speak_chunk_raised env lang output_dir timestamp combined i chunk e w E).
Qed.

Lemma speak_chunks_no_new_file lang output_dir timestamp ics combined :
  preserves no_new_file
    (for_each (speak_chunk env lang output_dir timestamp) ics combined).
Proof.
  apply preserves_for_each.
  - intros w. unfold no_new_file. reflexivity.
  - intros w1 w2 w3 H12 H23. unfold no_new_file in *. now transitivity (files w2).
  - intros acc x. apply speak_chunk_no_new_file.
Qed.





End CoreProperties.


Section CoreProperties2.

Import Core Chunker Frames.

Variable env : services.


(** X5.  [translate_text] is all or nothing on a long text: at the first
    chunk the translator refuses, it returns the error string, nothing of
    what was translated before it, and the chunks after it are not sent. *)
Theorem translate_text_stops_at_first_failure (text lang : string)
    (tr : string -> string) (before after : list string) (bad : string)
    (e : exn) (w : world) :
  MAX_CHUNK_SIZE < String.length text ->
  String.eqb lang source_language = false ->
  translator_init env lang = None ->
  translate_chunks MAX_CHUNK_SIZE text = (before ++ bad :: after)%list ->
  (forall c, In c before -> translator_translate env lang c = Returned (tr c)) ->
  translator_translate env lang bad = Raised e ->
  Core.translate_text env text lang w
  = (Returned ("Translation error: " +:+ e),
     after_calls w (map (Translate lang) (before ++ [bad]))).
Proof. apply translate_text_long_raised. Qed.



(** X8.  Whatever the translator does, [translate_text] changes nothing
    but the log of requests, to which it adds requests for translations
    into the target language only: files, clock, balances and usage log
    are as they were. *)
Theorem translate_text_only_sends_translations (text lang : string) (w : world) :
  sends_only (is_translate_to lang) w (Core.translate_text env text lang w).2.
Proof. apply translate_text_sends_only. Qed.

(** X9.  Whatever the synthesiser does, [text_to_speech] changes nothing
    but the audio files and the log of requests, to which it adds
    requests for speech in the given language only: clock, balances and
    usage log are as they were, and no translation is requested. *)
Theorem text_to_speech_only_speaks_and_writes (text lang output_dir : string)
    (w : world) :
  sends_and_writes_only (is_speak_in lang) w
    (Core.text_to_speech env text lang output_dir w).2.
Proof. apply text_to_speech_sends_and_writes. Qed.

(** X10.  When the body of [text_to_speech] returns, what it returns is
    the path [output_dir/audio_<lang>_<timestamp>.mp3], a file exists at
    that path, and no other file was added or changed: the temporary
    files of the chunks are gone. *)
Theorem text_to_speech_output_exists (text lang output_dir path : string)
    (w : world) :
  (text_to_speech_body env text lang output_dir w).1 = Returned path ->
  path = path_join output_dir ("audio_" +:+ lang +:+ "_" +:+ clock w +:+ ".mp3")
  /\ is_Some (files (text_to_speech_body env text lang output_dir w).2 !! path)
  /\ forall other a,
       other <> path ->
       files (text_to_speech_body env text lang output_dir w).2 !! other = Some a ->
       files w !! other = Some a.
Proof.
  remember (text_to_speech_body env text lang output_dir w) as r eqn:Er.
  unfold text_to_speech_body in Er. unfold bind at 1, get in Er.
  set (filename := path_join output_dir _) in *.
  assert (Hsave : forall t,
            r = bind (tts_save env t lang filename) (fun _ => ret filename) w ->
            r.1 = Returned path ->
            path = filename
            /\ is_Some (files r.2 !! path)
            /\ forall other a,
                 other <> path -> files r.2 !! other = Some a ->
                 files w !! other = Some a).
  { intros t ->. unfold tts_save, bind, modify, lift, ret.
    destruct (gtts_save env lang t) as [mp3|e]; cbn [fst snd]; [|discriminate].
    intros [= Hp]. rewrite <- Hp. cbn [files with_files with_calls].
    split; [reflexivity|]. split.
    - rewrite lookup_insert_eq. eauto.
    - intros other a Hne. now rewrite lookup_insert_ne by congruence. }
  destruct (String.length text <=? MAX_TTS_SIZE); [now apply (Hsave text)|].
  destruct (negb (pydub_installed env));
    [now apply (Hsave (take MAX_TTS_SIZE text))|].
  clear Hsave.
  pose proof (speak_chunks_no_new_file env lang output_dir (clock w)
                (enumerate 1 (tts_chunks MAX_TTS_SIZE text)) [] w) as Hsub.
  unfold no_new_file in Hsub. unfold bind at 1 in Er.
  destruct (for_each _ _ _ w) as [[combined|e] w1]; cbn [fst snd] in *;
    subst r; cbn [fst snd]; [|discriminate].
  unfold bind, modify, ret. cbn [fst snd files with_files].
  intros [= Hp]. rewrite <- Hp. split; [reflexivity|]. split.
  - rewrite lookup_insert_eq. eauto.
  - intros other a Hne. rewrite lookup_insert_ne by congruence.
    intros Hl. exact (lookup_weaken _ _ _ _ Hl Hsub).
Qed.

(** X11.  When the translator cannot be built, [translate_text] returns
    the error string and sends nothing, on the short path and on the
    chunked path alike. *)
Theorem translate_text_translator_not_built (text lang : string) (e : exn)
    (w : world) :
  String.eqb lang source_language = false ->
  translator_init env lang = Some e ->
  Core.translate_text env text lang w = (Returned ("Translation error: " +:+ e), w).
Proof.
  intros Hlang Hinit.
  unfold Core.translate_text, try_except, translate_text_body.
  destruct (String.length text <=? MAX_CHUNK_SIZE); rewrite Hlang;
    unfold bind, new_translator; now rewrite Hinit.
Qed.


End CoreProperties2.

Lemma translate_text_stops_at_first_failure_witness :
  Core.translate_text Samples.picky_services Samples.three_sentences "es"
    Samples.empty_world
  = (Returned "Translation error: quota",
     Core.after_calls Samples.empty_world
       (map (Core.Translate "es")
            ([repeat "a" 3000]
             ++ [repeat "b" 3000 +:+ Chunker.PARAGRAPH_SEP +:+ repeat "c" 100]))).
Proof.
  apply (translate_text_stops_at_first_failure Samples.picky_services
           Samples.three_sentences "es" (fun c => c) [repeat "a" 3000] []
           (repeat "b" 3000 +:+ Chunker.PARAGRAPH_SEP +:+ repeat "c" 100)
           "quota" Samples.empty_world).
  - apply Nat.ltb_lt. vm_compute. reflexivity.
  - reflexivity.
  - reflexivity.
  - vm_compute. reflexivity.
  - intros c [<-|[]]. vm_compute. reflexivity.
  - vm_compute. reflexivity.
Defined.



Lemma text_to_speech_output_exists_witness :
  "output_audio/audio_es_20240101_120000.mp3"
  = Core.path_join "output_audio"
      ("audio_" +:+ "es" +:+ "_" +:+ Core.clock Samples.empty_world +:+ ".mp3")
  /\ is_Some (Core.files
                (Core.text_to_speech_body Samples.identity_services
                   Samples.three_sentences "es" "output_audio"
                   Samples.empty_world).2
              !! "output_audio/audio_es_20240101_120000.mp3").
Proof.
  pose proof (text_to_speech_output_exists Samples.identity_services
                Samples.three_sentences "es" "output_audio"
                "output_audio/audio_es_20240101_120000.mp3"
                Samples.empty_world) as H.
  destruct H as [H1 [H2 _]]; [vm_compute; reflexivity|].
  split; [exact H1 | exact H2].
Defined.

Lemma translate_text_translator_not_built_witness :
  Core.translate_text (Samples.unbuildable_services "nl --> No support") "hello"
    "es" Samples.empty_world
  = (Returned "Translation error: nl --> No support", Samples.empty_world).
Proof.
  apply (translate_text_translator_not_built
           (Samples.unbuildable_services "nl --> No support") "hello" "es"
           "nl --> No support" Samples.empty_world); reflexivity.
Defined.


(* ===================================================================== *)
(** * Properties of the extractors *)
(* ===================================================================== *)

Section StripFacts.

Import Frames.

Lemma lstrip_starts_clean (s : string) : starts_clean (lstrip s).
Proof.
  induction s as [|c s IH]; cbn [lstrip]; [exact I|].
  destruct (isspace c) eqn:E; [exact IH | exact E].
Qed.

Lemma lstrip_clean (s : string) : starts_clean s -> lstrip s = s.
Proof. destruct s as [|c s]; cbn; [reflexivity|]. now intros ->. Qed.

Lemma rstrip_cons_nonspace (c : ascii) (s : string) :
  isspace c = false -> exists r, rstrip (String c s) = String c r.
Proof.
  intros H. cbn [rstrip]. destruct (rstrip s); [|eauto].
  rewrite H. eauto.
Qed.

Lemma rstrip_starts_clean (s : string) : starts_clean s -> starts_clean (rstrip s).
Proof.
  destruct s as [|c s]; [easy|]. intros H.
  destruct (rstrip_cons_nonspace c s H) as [r ->]. exact H.
Qed.

Lemma rstrip_cons (c : ascii) (s : string) :
  rstrip (String c s)
  = match rstrip s with
    | EmptyString => if isspace c then EmptyString else String c EmptyString
    | String d r => String c (String d r)
    end.
Proof. reflexivity. Qed.

Lemma rstrip_rstrip (s : string) : rstrip (rstrip s) = rstrip s.
Proof.
  induction s as [|c s IH]; [reflexivity|]. rewrite rstrip_cons.
  destruct (rstrip s) as [|d r] eqn:E.
  - destruct (isspace c) eqn:Hc; [reflexivity|]. cbn [rstrip]. now rewrite Hc.
  - rewrite rstrip_cons, IH. reflexivity.
Qed.

(** [s.strip().strip() == s.strip()] *)
Lemma strip_strip (s : string) : strip (strip s) = strip s.
Proof.
  unfold strip.
  rewrite (lstrip_clean (rstrip (lstrip s)))
    by apply rstrip_starts_clean, lstrip_starts_clean.
  apply rstrip_rstrip.
Qed.


End StripFacts.

Section FileProperties.

Import Core.

(** The chain of [process_file] ends in one of the six extractors. *)
Lemma dispatch_cases (lib : FileProcessor.extractors) (ext : string) f :
  FileProcessor.dispatch lib ext = Some f ->
  In f [FileProcessor._process_txt lib; FileProcessor._process_pdf lib;
        FileProcessor._process_docx lib; FileProcessor._process_json lib;
        FileProcessor._process_csv lib; FileProcessor._process_xlsx lib].
Proof.
  unfold FileProcessor.dispatch.
  repeat (destruct (String.eqb ext _); [intros [= <-]; cbn; auto 10|]).
  destruct (existsb _ _); [intros [= <-]; cbn; auto 10 | discriminate].
Qed.

(** X13.  A file name without a dot is its own extension: lowercased, the
    whole name is looked up among the supported formats. *)
Theorem get_file_extension_without_dot (filename : string) :
  contains "." filename = false ->
  FileProcessor.get_file_extension filename = lower filename.
Proof.
  intros H. unfold FileProcessor.get_file_extension.
  now rewrite (split_dot_none _ H).
Qed.

(** Every test [process_file] makes before it answers with a text. *)
Lemma process_file_success_inv (lib : FileProcessor.extractors)
    (file_content : list Byte.byte) (filename text name format : string)
    (size_bytes char_count : nat) :
  FileProcessor.process_file lib file_content filename
  = FileProcessor.Extracted text name format size_bytes char_count ->
  name = filename
  /\ format = FileProcessor.get_file_extension filename
  /\ In format (FileProcessor.keys FileProcessor.SUPPORTED_FORMATS)
  /\ size_bytes = length file_content
  /\ (N.of_nat size_bytes <= FileProcessor.MAX_FILE_SIZE)%N
  /\ char_count = String.length text
  /\ exists extract,
       FileProcessor.dispatch lib format = Some extract
       /\ extract file_content = Returned text.
Proof.
  unfold FileProcessor.process_file, FileProcessor.is_supported.
  destruct (FileProcessor.has_key _ _) eqn:Hkey; cbn [negb]; [|discriminate].
  destruct (_ <? _)%N eqn:Hsize; [discriminate|].
  destruct (FileProcessor.dispatch lib _) as [extract|] eqn:Hd; [|discriminate].
  destruct (extract file_content) as [t|e] eqn:He; [|discriminate].
  intros [= <- <- <- <- <-].
  apply has_key_In in Hkey. apply N.ltb_ge in Hsize.
  repeat split; try assumption; try reflexivity. eauto.
Qed.

(** X14.  What a successful [process_file] reports is consistent: the
    name is the name given, the format is the extension of that name and
    a supported one, the size is the number of bytes and within
    [MAX_FILE_SIZE], the text is what the extractor of that format
    returned, and the character count is the length of that text. *)
Theorem process_file_success_is_consistent (lib : FileProcessor.extractors)
    (file_content : list Byte.byte) (filename text name format : string)
    (size_bytes char_count : nat) :
  FileProcessor.process_file lib file_content filename
  = FileProcessor.Extracted text name format size_bytes char_count ->
  name = filename
  /\ format = FileProcessor.get_file_extension filename
  /\ In format (FileProcessor.keys FileProcessor.SUPPORTED_FORMATS)
  /\ size_bytes = length file_content
  /\ (N.of_nat size_bytes <= FileProcessor.MAX_FILE_SIZE)%N
  /\ char_count = String.length text
  /\ exists extract,
       FileProcessor.dispatch lib format = Some extract
       /\ extract file_content = Returned text.
Proof.
  apply process_file_success_inv.
Qed.

Variable libs : Extractors.libraries.

Lemma extractors_return_stripped f (content : list Byte.byte) (t : string) :
  In f [Extractors._process_txt libs; Extractors._process_pdf libs;
        Extractors._process_docx libs; Extractors._process_json libs;
        Extractors._process_csv libs; Extractors._process_xlsx libs] ->
  f content = Returned t -> strip t = t.
Proof.
  cbn [In]. intros H.
  repeat (destruct H as [<-|H]); [..|destruct H].
  - unfold Extractors._process_txt. intros [= <-]. apply strip_strip.
  - unfold Extractors._process_pdf.
    destruct (Extractors.pdf_page_texts libs content); [|discriminate].
    intros [= <-]. apply strip_strip.
  - unfold Extractors._process_docx.
    destruct (Extractors.docx_paragraph_texts libs content); [|discriminate].
    intros [= <-]. apply strip_strip.
  - unfold Extractors._process_json.
    destruct (Extractors.json_loads libs _); [|discriminate].
    intros [= <-]. apply strip_strip.
  - unfold Extractors._process_csv.
    destruct (Extractors.csv_reader libs _); [|discriminate].
    intros [= <-]. apply strip_strip.
  - unfold Extractors._process_xlsx.
    destruct (Extractors.xlsx_sheets libs content); [|discriminate].
    intros [= <-]. apply strip_strip.
Qed.

(** X15.  The text [process_file] extracts, whatever the format, has no
    white space at its beginning or at its end: stripping it again
    changes nothing. *)
Theorem extracted_text_is_stripped (file_content : list Byte.byte)
    (filename text name format : string) (size_bytes char_count : nat) :
  FileProcessor.process_file (Extractors.extractors_of libs) file_content filename
  = FileProcessor.Extracted text name format size_bytes char_count ->
  strip text = text.
Proof.
  intros H.
  apply process_file_success_inv in H
    as (_ & _ & _ & _ & _ & _ & extract & Hd & He).
  apply dispatch_cases in Hd.
  exact (extractors_return_stripped extract file_content text Hd He).
Qed.


Lemma filter_blank_cells (row : list string) :
  (forall cell, In cell row -> strip cell = "") ->
  List.filter (fun cell => nonempty (strip cell)) row = [].
Proof.
  induction row as [|cell row IH]; intros H; [reflexivity|].
  cbn [List.filter]. rewrite (H cell (or_introl eq_refl)). cbn [nonempty].
  apply IH. intros c Hc. apply H. now right.
Qed.

Lemma csv_rows_blank (rows : list (list string)) :
  (forall row cell, In row rows -> In cell row -> strip cell = "") ->
  List.filter nonempty (map Extractors.csv_row_text rows) = [].
Proof.
  induction rows as [|row rows IH]; intros H; [reflexivity|].
  cbn [map List.filter]. unfold Extractors.csv_row_text at 1.
  rewrite filter_blank_cells by (intros cell Hc; apply (H row cell); [now left|exact Hc]).
  cbn [map join String.concat nonempty].
  apply IH. intros row' cell Hr Hc. apply (H row' cell); [now right | exact Hc].
Qed.

(** X17.  A CSV file all of whose cells are blank gives the empty text. *)
Theorem csv_of_blank_cells_is_empty (content : list Byte.byte)
    (rows : list (list string)) :
  Extractors.csv_reader libs (Extractors.decode_utf8_ignore libs content)
  = Returned rows ->
  (forall row cell, In row rows -> In cell row -> strip cell = "") ->
  Extractors._process_csv libs content = Returned "".
Proof.
  intros Hrows Hblank. unfold Extractors._process_csv.
  now rewrite Hrows, (csv_rows_blank rows Hblank).
Qed.

End FileProperties.

Lemma get_file_extension_without_dot_witness :
  FileProcessor.get_file_extension "README" = lower "README".
Proof.
  apply (get_file_extension_without_dot "README"). vm_compute. reflexivity.
Defined.

Lemma process_file_success_is_consistent_witness :
  "report.PDF" = "report.PDF"
  /\ "pdf" = FileProcessor.get_file_extension "report.PDF".
Proof.
  pose proof (process_file_success_is_consistent
                (Samples.constant_extractors "sheet") [] "report.PDF"
                "sheet" "report.PDF" "pdf" 0 5) as H.
  destruct H as (H1 & H2 & _); [vm_compute; reflexivity|].
  split; [exact H1 | exact H2].
Defined.

Lemma extracted_text_is_stripped_witness : strip "hello world" = "hello world".
Proof.
  apply (extracted_text_is_stripped Samples.sample_libraries [] "notes.txt"
           "hello world" "notes.txt" "txt" 0 11).
  vm_compute. reflexivity.
Defined.


Lemma csv_of_blank_cells_is_empty_witness :
  Extractors._process_csv Samples.blank_csv_libraries [] = Returned "".
Proof.
  apply (csv_of_blank_cells_is_empty Samples.blank_csv_libraries []
           [[" "; ""]; []; ["  "]]).
  - reflexivity.
  - intros row cell Hr Hc. cbn [In] in Hr.
    repeat (destruct Hr as [<-|Hr];
            [cbn [In] in Hc;
             repeat (destruct Hc as [<-|Hc]; [vm_compute; reflexivity|]);
             destruct Hc|]).
    destruct Hr.
Defined.

(* ===================================================================== *)
(** * Further properties of the endpoints *)
(* ===================================================================== *)

Section ApiProperties.

Import Core Auth Api Frames.

Variable env : services.
Variable lib : FileProcessor.extractors.




(** X18.  When the text extracted from an uploaded file is empty or
    longer than [MAX_TEXT_LENGTH], /process-file answers 400 after the
    credit has been taken: the world differs by that credit only, nothing
    is sent to the translator or to the synthesiser, and no usage row is
    written. *)
Theorem process_file_rejects_empty_or_long_text (current_user : user)
    (file : upload) (lang text name format : string) (size_bytes char_count : nat)
    (w : world) :
  FileProcessor.has_key lang Config.TARGET_LANGUAGES = true ->
  covered w (id current_user) 1 = true ->
  FileProcessor.process_file lib (content file) (filename file)
  = FileProcessor.Extracted text name format size_bytes char_count ->
  String.length text = 0
  \/ (Config.MAX_TEXT_LENGTH < N.of_nat (String.length text))%N ->
  exists detail,
    Api.process_file env lib current_user file lang w
    = (Raised (mkHttpError 400 detail), charged w (id current_user) 1).
Proof.
  intros Hlang Hcov Hfile Htext.
  unfold Api.process_file, handler. unfold try_except at 1.
  rewrite Hlang. cbn [negb]. unfold bind at 1.
  rewrite check_and_deduct_credits_eq, Hcov. cbn [negb]. rewrite Hfile.
  destruct (Config.MAX_TEXT_LENGTH <? N.of_nat (String.length text))%N eqn:Hlong.
  - eexists. reflexivity.
  - destruct Htext as [Hempty | Htoo]; [|apply N.ltb_lt in Htoo; congruence].
    rewrite Hempty. eexists. reflexivity.
Qed.




(** X22.  Request validation accepts a body exactly when its text has 1
    to 20000 characters and its target language is one of the nine codes,
    and the validated request carries the text and the code unchanged. *)
Theorem validate_accepts_exactly (raw_text raw_target_language : string) :
  ((exists data, Models.validate raw_text raw_target_language = Some data)
   <-> (1 <= N.of_nat (String.length raw_text) <= 20000)%N
       /\ In raw_target_language Models.accepted_codes)
  /\ forall data,
       Models.validate raw_text raw_target_language = Some data ->
       Models.text data = raw_text
       /\ Models.value (Models.target_language data) = raw_target_language.
Proof.
  unfold Models.validate. split; [split|].
  - intros [data H].
    destruct (_ && _)%bool eqn:Hlen; [|discriminate].
    apply andb_prop in Hlen as [H1 H2].
    apply N.leb_le in H1. apply N.leb_le in H2. split; [lia|].
    destruct (Models.of_value raw_target_language) as [m|] eqn:Hm; [|discriminate].
    apply of_value_Some in Hm as [<- Hin].
    change Models.accepted_codes with (map Models.value Models.members).
    now apply in_map.
  - intros [[H1 H2] Hin].
    rewrite (proj2 (N.leb_le _ _) H1), (proj2 (N.leb_le _ _) H2). cbn [andb].
    destruct (Models.of_value raw_target_language) as [m|] eqn:Hm; [cbn; eauto|].
    exfalso. cbn [Models.accepted_codes In] in Hin.
    repeat (destruct Hin as [<-|Hin]; [discriminate Hm|]). destruct Hin.
  - intros data H. destruct (_ && _)%bool; [|discriminate].
    destruct (Models.of_value raw_target_language) as [m|] eqn:Hm; [|discriminate].
    injection H as <-. cbn. split; [reflexivity|].
    now apply of_value_Some in Hm as [-> _].
Qed.

End ApiProperties.

Lemma process_file_rejects_empty_or_long_text_witness :
  exists detail,
    Api.process_file Samples.identity_services (Samples.constant_extractors "")
      Samples.u1 (Api.mkUpload "a.txt" []) "es" Samples.funded_world
    = (Raised (Api.mkHttpError 400 detail),
       Auth.charged Samples.funded_world (Api.id Samples.u1) 1).
Proof.
  apply (process_file_rejects_empty_or_long_text Samples.identity_services
           (Samples.constant_extractors "") Samples.u1 (Api.mkUpload "a.txt" [])
           "es" "" "a.txt" "txt" 0 0 Samples.funded_world).
  - vm_compute. reflexivity.
  - vm_compute. reflexivity.
  - vm_compute. reflexivity.
  - left. reflexivity.
Defined.




(* ===================================================================== *)
(** * Properties of registration, login and token verification *)
(* ===================================================================== *)

Section AuthProperties.

Import Core Api AuthService.

Variable sb : provider.

Lemma startswith_append (p s : string) : startswith p (p +:+ s) = true.
Proof.
  unfold startswith. induction p as [|c p IH]; [now destruct s|].
  rewrite append_cons. cbn [String.prefix].
  destruct (ascii_dec c c); [exact IH | congruence].
Qed.

(** X23.  Whatever goes wrong in [sign_up], the caller sees status 400
    and a detail that begins with [Registration error: ]: there being no
    clause that lets an HTTP exception pass, the refusal "Failed to create
    user" raised by the body is wrapped like any other exception. *)
Theorem sign_up_fails_with_400 (email password : string)
    (full_name : option string) (e : http_error) :
  sign_up sb email password full_name = Raised e ->
  status_code e = 400
  /\ startswith "Registration error: " (detail e) = true.
Proof.
  unfold sign_up.
  destruct (sign_up_body sb email password full_name) as [r|[s d|m]];
    [discriminate| |]; intros [= <-]; cbn [status_code detail];
    (split; [reflexivity | apply startswith_append]).
Qed.

(** X24.  Whatever goes wrong in [sign_in], the caller sees status 401:
    unknown credentials, a failing provider, a failing profile query and
    a missing session alike. *)
Theorem sign_in_fails_with_401 (email password : string) (e : http_error) :
  sign_in sb email password = Raised e -> status_code e = 401.
Proof.
  unfold sign_in, sign_in_body.
  destruct (auth_sign_in_with_password sb email password) as [response|m];
    [|now intros [= <-]].
  destruct (response_user response) as [u|]; [|now intros [= <-]].
  destruct (select_profile sb (user_id u)) as [data|m]; [|now intros [= <-]].
  destruct (response_session response) as [s|]; [discriminate|now intros [= <-]].
Qed.

(** X25.  [get_current_user] fails with status 401 or 404 only, and with
    404 exactly when the token names a user for whom the profile query
    answers no row. *)
Theorem get_current_user_fails_with_401_or_404 (token : string) (e : http_error) :
  get_current_user sb token = Raised e ->
  (status_code e = 401 \/ status_code e = 404)
  /\ (status_code e = 404 <->
      exists u, auth_get_user sb token = Returned (Some u)
                /\ select_profile sb (user_id u) = Returned None).
Proof.
  unfold get_current_user, get_current_user_body.
  destruct (auth_get_user sb token) as [[u|]|m].
  - destruct (select_profile sb (user_id u)) as [[p|]|m] eqn:Hp.
    + discriminate.
    + intros [= <-]. cbn. split; [now right|]. split; [eauto | reflexivity].
    + intros [= <-]. cbn. split; [now left|]. split; [discriminate|].
      intros [u' [[= <-] H]]. congruence.
  - intros [= <-]. cbn. split; [now left|]. split; [discriminate|].
    intros [u' [[=] _]].
  - intros [= <-]. cbn. split; [now left|]. split; [discriminate|].
    intros [u' [[=] _]].
Qed.

End AuthProperties.

Lemma sign_up_fails_with_400_witness :
  Api.status_code
    (Api.mkHttpError 400
       "Registration error: 400: Failed to create user. Email might already be registered.")
  = 400
  /\ startswith "Registration error: "
       (Api.detail
          (Api.mkHttpError 400
             "Registration error: 400: Failed to create user. Email might already be registered."))
     = true.
Proof.
  apply (sign_up_fails_with_400 Samples.provider_without_profile
           "ann@example.com" "secret88" None).
  vm_compute. reflexivity.
Defined.

Lemma sign_in_fails_with_401_witness :
  Api.status_code
    (Api.mkHttpError 401
       ("Login error: " +:+ AuthService.NO_ACCESS_TOKEN))
  = 401.
Proof.
  apply (sign_in_fails_with_401 Samples.provider_without_profile
           "ann@example.com" "secret88").
  vm_compute. reflexivity.
Defined.

Lemma get_current_user_fails_with_401_or_404_witness :
  Api.status_code (Api.mkHttpError 404 "User profile not found") = 401
  \/ Api.status_code (Api.mkHttpError 404 "User profile not found") = 404.
Proof.
  refine (proj1 (get_current_user_fails_with_401_or_404
                   Samples.provider_without_profile "token"
                   (Api.mkHttpError 404 "User profile not found") _)).
  vm_compute. reflexivity.
Defined.
